(** * Homography estimation (DLT, reprojection scoring, RANSAC)

    A shallow embedding of [homography.py]: [find_homography],
    [homography_error], [count_homography_inliers] and
    [find_homography_RANSAC], with the NumPy operations they call.

    - Numbers.  The arrays hold float64 values.  The definitions are written
      once over a class [Scalar] of the arithmetic the code uses; the
      instance [float_scalar] (IEEE binary64, Rocq's primitive floats) is the
      arithmetic the program runs on, the instance [real_scalar] reads the
      same definitions in exact real arithmetic.
    - Arrays.  A 1-D array is a list, a 2-D array the list of its rows.
    - Exceptions.  A call returns a value or raises: [outcome].
    - [np.linalg.svd] is not part of the repository: it is a Section
      variable.  [np.random.choice(n, 4, replace=False)] is modelled after
      NumPy's [RandomState.choice]: the first entries of a Fisher-Yates
      permutation of [arange(n)], driven by an abstract bit generator. *)

From Stdlib Require Import ZArith Lia Floats Reals Lra.
From stdpp Require Import base list.

Set Default Proof Using "Type".

(** ** Exceptions *)

Inductive exn : Set :=
  | IndexError
  | ValueError
  | ZeroDivisionError
  | LinAlgError.

Inductive outcome (A : Type) : Type :=
  | Returned (a : A)
  | Raised (e : exn).
Arguments Returned {A} a.
Arguments Raised {A} e.

(** Sequencing: the first exception raised ends the computation. *)
Definition bind {A B : Type} (m : outcome A) (k : A → outcome B) : outcome B :=
  match m with
  | Returned a => k a
  | Raised e => Raised e
  end.

Notation "'let*' x := m 'in' k" := (bind m (λ x, k))
  (at level 10, x name, m at level 100, k at level 200).
Notation "'let*' ' p := m 'in' k" := (bind m (λ x, match x with p => k end))
  (at level 10, p pattern, m at level 100, k at level 200).

(** Indexing that raises [IndexError] out of range. *)
Definition index {A} (l : list A) (i : nat) : outcome A :=
  match l !! i with
  | Some a => Returned a
  | None => Raised IndexError
  end.

(** ** Scalars *)

Class Scalar (F : Type) : Type := {
  s_zero : F;
  s_one : F;
  s_add : F → F → F;
  s_sub : F → F → F;
  s_mul : F → F → F;
  s_div : F → F → F;
  s_neg : F → F;
  s_sqrt : F → F;
  s_ltb : F → F → bool;
  s_eqb : F → F → bool
}.

Declare Scope scalar_scope.
Delimit Scope scalar_scope with sc.
Notation "x + y" := (s_add x y) : scalar_scope.
Notation "x - y" := (s_sub x y) : scalar_scope.
Notation "x * y" := (s_mul x y) : scalar_scope.
Notation "x / y" := (s_div x y) : scalar_scope.
Notation "- x" := (s_neg x) : scalar_scope.

(** float64: the arithmetic of the program. *)
#[global] Instance float_scalar : Scalar float := {
  s_zero := PrimFloat.zero;
  s_one := PrimFloat.one;
  s_add := PrimFloat.add;
  s_sub := PrimFloat.sub;
  s_mul := PrimFloat.mul;
  s_div := PrimFloat.div;
  s_neg := PrimFloat.opp;
  s_sqrt := PrimFloat.sqrt;
  s_ltb := PrimFloat.ltb;
  s_eqb := PrimFloat.eqb
}.

(** The same operations without rounding.  Division by 0 is total over
    [R] (its value is unspecified but fixed); statements over the reals
    that divide by [H[2,2]] or by a projection's third coordinate are
    about the code where that divisor is not 0. *)
#[global] Instance real_scalar : Scalar R := {
  s_zero := 0%R;
  s_one := 1%R;
  s_add := Rplus;
  s_sub := Rminus;
  s_mul := Rmult;
  s_div := Rdiv;
  s_neg := Ropp;
  s_sqrt := R_sqrt.sqrt;
  s_ltb := λ x y, if Rlt_dec x y then true else false;
  s_eqb := λ x y, if Req_dec_T x y then true else false
}.

(** ** NumPy arrays and the operations the program applies to them *)

(** A 1-D array, and a 2-D array as the list of its rows. *)
Abbreviation vector F := (list F) (only parsing).
Abbreviation matrix F := (list (list F)) (only parsing).

Section Numpy.
Context {F : Type} `{Scalar F}.

(** [M.shape == (r, c)] *)
Definition shape (r c : nat) (M : matrix F) : Prop :=
  length M = r ∧ Forall (λ row, length row = c) M.

(** [M.shape[1]], [np.size(M, axis=1)] *)
Definition ncols (M : matrix F) : nat :=
  match M with
  | [] => 0
  | row :: _ => length row
  end.

(** [M[:, i]] *)
Definition column (M : matrix F) (i : nat) : outcome (vector F) :=
  match mapM (λ row : list F, row !! i) M with
  | Some col => Returned col
  | None => Raised IndexError
  end.

(** [M[:, idx]] for an index array [idx] *)
Definition take_columns (M : matrix F) (idx : list nat) : outcome (matrix F) :=
  match mapM (λ row : list F, mapM (λ j, row !! j) idx) M with
  | Some M' => Returned M'
  | None => Raised IndexError
  end.

(** [a, b = v] *)
Definition unpack2 (v : vector F) : outcome (F * F) :=
  match v with
  | [a; b] => Returned (a, b)
  | _ => Raised ValueError
  end.

(** [np.ones((r, c))] *)
Definition ones (r c : nat) : matrix F := replicate r (replicate c s_one).

(** [np.vstack((A, B))] *)
Definition vstack (A B : matrix F) : outcome (matrix F) :=
  if decide (ncols A = ncols B) then Returned (A ++ B) else Raised ValueError.

(** [np.diag(v)] *)
Definition diag (v : vector F) : matrix F :=
  imap (λ i x, <[i := x]> (replicate (length v) s_zero)) v.

(** The inner loop of a matrix product: [acc = 0; acc += a[k] * b[k]].
    In float64 the order of the additions is that of this loop; NumPy
    hands the product to BLAS, which may add in another order or fuse a
    multiplication with an addition, so the last bit of an entry may
    differ.  Over the reals the order is immaterial. *)
Definition dot (a b : vector F) : F :=
  foldl (λ acc ab, acc + ab.1 * ab.2)%sc s_zero (zip a b).

(** Column [j] of a matrix whose rows are long enough. *)
Definition col_of (B : matrix F) (j : nat) : vector F :=
  (λ row, nth j row s_zero) <$> B.

(** One row of a matrix product. *)
Definition row_times (arow : vector F) (B : matrix F) : vector F :=
  (λ j, dot arow (col_of B j)) <$> seq 0 (ncols B).

(** [A @ B] *)
Definition matmul (A B : matrix F) : outcome (matrix F) :=
  if decide (Forall (λ row, length row = length B) A)
  then Returned ((λ arow, row_times arow B) <$> A)
  else Raised ValueError.

(** Broadcasting along one axis: equal lengths pair up, a length-1 side is
    repeated, anything else is a shape mismatch. *)
Definition broadcast {A B : Type} (a : list A) (b : list B) : outcome (list (A * B)) :=
  if decide (length a = length b) then Returned (zip a b)
  else match a, b with
       | [x], _ => Returned ((λ y, (x, y)) <$> b)
       | _, [y] => Returned ((λ x, (x, y)) <$> a)
       | _, _ => Raised ValueError
       end.

Fixpoint sequence {A : Type} (l : list (outcome A)) : outcome (list A) :=
  match l with
  | [] => Returned []
  | m :: l' => let* a := m in let* r := sequence l' in Returned (a :: r)
  end.

(** An elementwise binary operation on two 2-D arrays, with broadcasting. *)
Definition elementwise_row (op : F → F → F) (a b : vector F) : outcome (vector F) :=
  let* cells := broadcast a b in
  Returned ((λ xy : F * F, op xy.1 xy.2) <$> cells).

Definition elementwise (op : F → F → F) (A B : matrix F) : outcome (matrix F) :=
  let* rows := broadcast A B in
  sequence ((λ ab : (vector F * vector F), elementwise_row op ab.1 ab.2) <$> rows).

(** A function applied to every cell of a 2-D array. *)
Definition map_cells (f : F → F) (M : matrix F) : matrix F :=
  (λ row : vector F, f <$> row) <$> M.

(** [c * M] and [M / c] for a scalar [c] *)
Definition scale (c : F) (M : matrix F) : matrix F := map_cells (λ x, c * x)%sc M.
Definition div_scalar (M : matrix F) (c : F) : matrix F := map_cells (λ x, x / c)%sc M.

(** [M ** 2] *)
Definition square (M : matrix F) : matrix F := map_cells (λ x, x * x)%sc M.

(** [np.sum(M, axis=0)] *)
Definition sum_axis0 (M : matrix F) : vector F :=
  match M with
  | [] => []
  | row :: rows => foldl (zip_with s_add) row rows
  end.

(** [np.sqrt(v)] *)
Definition np_sqrt (v : vector F) : vector F := s_sqrt <$> v.

(** [np.where(v < t, 1, 0)] *)
Definition where_lt (v : vector F) (t : F) : list Z :=
  (λ e, if s_ltb e t then 1%Z else 0%Z) <$> v.

(** [np.sum] of an integer array *)
Definition np_sum (l : list Z) : Z := foldl Z.add 0%Z l.

(** [np.linalg.norm(M)]: the Frobenius norm, [sqrt(dot(x, x))] of the
    flattened array. *)
Definition norm (M : matrix F) : F :=
  let x := concat M in s_sqrt (dot x x).

(** [a / b] on Python numbers *)
Definition py_div (a b : F) : outcome F :=
  if s_eqb b s_zero then Raised ZeroDivisionError else Returned (a / b)%sc.

(** [h.reshape((3, 3))] *)
Definition reshape33 (h : vector F) : outcome (matrix F) :=
  match h with
  | [h0; h1; h2; h3; h4; h5; h6; h7; h8] =>
      Returned [[h0; h1; h2]; [h3; h4; h5]; [h6; h7; h8]]
  | _ => Raised ValueError
  end.

(** [M[-1, :]] *)
Definition last_row (M : matrix F) : outcome (vector F) :=
  match last M with
  | Some row => Returned row
  | None => Raised IndexError
  end.

(** [M[i, j]] *)
Definition entry (M : matrix F) (i j : nat) : outcome F :=
  let* row := index M i in index row j.
End Numpy.


(** A [for] loop over a list of indices, threading the loop variables. *)
Fixpoint for_each {I S : Type} (l : list I) (body : S → I → outcome S) (s : S) : outcome S :=
  match l with
  | [] => Returned s
  | i :: l' => let* s' := body s i in for_each l' body s'
  end.

(** ** The program *)

Section Homography.
Context {F : Type} `{Scalar F}.

(** [np.linalg.svd(A)]: [(U, S, Vh)], or [LinAlgError]. *)
Variable svd : matrix F → outcome (matrix F * vector F * matrix F).

Local Open Scope scalar_scope.

(** *** find_homography *)

(** The body of [for i in range(n)]: two rows appended to [A]. *)
Definition find_homography_step (pts1 pts2 : matrix F) (A : matrix F) (i : nat)
  : outcome (matrix F) :=
  let* c1 := column pts1 i in
  let* '(x_a, y_a) := unpack2 c1 in
  let* c2 := column pts2 i in
  let* '(x_b, y_b) := unpack2 c2 in
  let A := A ++ [[x_a; y_a; s_one; s_zero; s_zero; s_zero;
                  - x_a * x_b; - y_a * x_b; - x_b]] in
  let A := A ++ [[s_zero; s_zero; s_zero; x_a; y_a; s_one;
                  - x_a * y_b; - y_a * y_b; - y_b]] in
  Returned A.

(** [n = pts1.shape[1]]; the loop; [U, S, Vh = np.linalg.svd(A)];
    [h = Vh[-1, :]]; [H = h.reshape((3, 3))]. *)
Definition find_homography (pts1 pts2 : matrix F) : outcome (matrix F) :=
  let n := ncols pts1 in
  let* A := for_each (seq 0 n) (find_homography_step pts1 pts2) [] in
  let* '(U, Sigma, Vh) := svd A in
  let* h := last_row Vh in
  reshape33 h.

(** *** homography_error *)

(** [H_diff = H1/H1[2,2] - H2/H2[2,2]], then
    [np.linalg.norm(np.diag((1/focal, 1/focal, 1)) @ H_diff @ np.diag((focal, focal, 1)))].
    The array divisions are NumPy's and raise nothing; [1/focal] is a
    division of Python numbers ([focal] is a Python number, 1000 in every
    caller). *)
Definition homography_error (H1 H2 : matrix F) (focal : F) : outcome F :=
  let* h1 := entry H1 2 2 in
  let* h2 := entry H2 2 2 in
  let* H_diff := elementwise s_sub (div_scalar H1 h1) (div_scalar H2 h2) in
  let* f1 := py_div s_one focal in
  let* D := matmul (diag [f1; f1; s_one]) H_diff in
  let* D := matmul D (diag [focal; focal; s_one]) in
  Returned (norm D).

(** *** count_homography_inliers *)

(** [Hp1 = H @ np.vstack((pts1, np.ones((1, np.size(pts1, axis=1)))))],
    [errors = np.sqrt(np.sum((Hp1[0:2,:]/Hp1[2,:] - pts2)**2, axis=0))],
    [ninliers = np.sum(np.where(errors < thresh**2, 1, 0))].
    [thresh**2] is written as the product [thresh * thresh].  For a
    Python float whose square is not finite the power raises
    [OverflowError] where the product is infinite; at the default
    threshold 1.0, and at every threshold of finite square, no such
    exception arises. *)
Definition count_homography_inliers (H0 pts1 pts2 : matrix F) (thresh : F)
  : outcome (Z * vector F) :=
  let* P := vstack pts1 (ones 1 (ncols pts1)) in
  let* Hp1 := matmul H0 P in
  let* w := index Hp1 2 in
  let* proj := elementwise s_div (take 2 Hp1) [w] in
  let* diff := elementwise s_sub proj pts2 in
  let errors := np_sqrt (sum_axis0 (square diff)) in
  let ninliers := np_sum (where_lt errors (thresh * thresh)) in
  Returned (ninliers, errors).

(** *** find_homography_RANSAC *)

(** The state of the process-wide generator, and its bounded draw:
    [random_interval g m] is an integer of [0..m] and the next state. *)
Variable rng : Type.
Variable random_interval : rng → nat → nat * rng.

(** [x[i], x[j] = x[j], x[i]] *)
Definition swap (x : list nat) (i j : nat) : list nat :=
  <[i := nth j x 0%nat]> (<[j := nth i x 0%nat]> x).

(** [for i in reversed(range(1, n)): j = random_interval(i); swap] *)
Fixpoint shuffle_from (i : nat) (g : rng) (x : list nat) : list nat * rng :=
  match i with
  | O => (x, g)
  | S i' => let '(j, g') := random_interval g i in shuffle_from i' g' (swap x i j)
  end.

Definition shuffle (g : rng) (x : list nat) : list nat * rng :=
  shuffle_from (length x - 1) g x.

(** [np.random.permutation(n)] *)
Definition permutation (g : rng) (n : nat) : list nat * rng :=
  shuffle g (seq 0 n).

(** [np.random.choice(pop, size, replace=False)] *)
Definition choice (g : rng) (pop size : nat) : outcome (list nat * rng) :=
  if decide (pop < size)%nat then Raised ValueError
  else let '(p, g') := permutation g pop in Returned (take size p, g').

(** What one trial computes. *)
Record trial : Type := Trial {
  idx : list nat;
  candidate : matrix F;
  local_ninliers : Z;
  local_errors : vector F
}.

(** The loop variables [Hbest], [ninliers], [errors], the generator, and
    (ghost) the trials run so far, latest first. *)
Record ransac_state : Type := RansacState {
  gen : rng;
  Hbest : option (matrix F);
  ninliers : Z;
  errors : option (vector F);
  trials : list trial
}.

(** [idx = np.random.choice(pts1.shape[1], 4, replace=False)], the two
    samples [pts1[:, idx]] and [pts2[:, idx]], the candidate and its score
    on all of [pts1], [pts2]. *)
Definition ransac_trial (pts1 pts2 : matrix F) (thresh : F) (g : rng)
  : outcome (trial * rng) :=
  let* '(idx, g') := choice g (ncols pts1) 4 in
  let* sampled_pts1 := take_columns pts1 idx in
  let* sampled_pts2 := take_columns pts2 idx in
  let* H0 := find_homography sampled_pts1 sampled_pts2 in
  let* '(n, e) := count_homography_inliers H0 pts1 pts2 thresh in
  Returned (Trial idx H0 n e, g').

(** [if local_ninliers > ninliers: Hbest, ninliers, errors = ...] *)
Definition ransac_update (st : ransac_state) (t : trial) (g' : rng) : ransac_state :=
  if (local_ninliers t >? ninliers st)%Z
  then RansacState g' (Some (candidate t)) (local_ninliers t) (Some (local_errors t))
                   (t :: trials st)
  else RansacState g' (Hbest st) (ninliers st) (errors st) (t :: trials st).

Definition ransac_body (pts1 pts2 : matrix F) (thresh : F) (st : ransac_state)
  : outcome ransac_state :=
  let* '(t, g') := ransac_trial pts1 pts2 thresh (gen st) in
  Returned (ransac_update st t g').

(** [k] iterations of the loop. *)
Fixpoint ransac_loop (pts1 pts2 : matrix F) (thresh : F) (k : nat) (st : ransac_state)
  : outcome ransac_state :=
  match k with
  | O => Returned st
  | S k' => let* st' := ransac_body pts1 pts2 thresh st in
            ransac_loop pts1 pts2 thresh k' st'
  end.

Definition ransac_init (g : rng) : ransac_state := RansacState g None 0%Z None [].

(** [range(niter)] is empty for a negative [niter]. *)
Definition find_homography_RANSAC (pts1 pts2 : matrix F) (niter : Z) (thresh : F) (g : rng)
  : outcome (option (matrix F) * Z * option (vector F) * rng) :=
  let* st := ransac_loop pts1 pts2 thresh (Z.to_nat niter) (ransac_init g) in
  Returned (Hbest st, ninliers st, errors st, gen st).
End Homography.

Arguments ransac_update {F rng} st t g'.
Arguments ransac_init {F rng} g.
Arguments gen {F rng} r.
Arguments Hbest {F rng} r.
Arguments ninliers {F rng} r.
Arguments errors {F rng} r.
Arguments trials {F rng} r.

(** ** What the specification calls these computations *)

Section Specification.
Context {F : Type} `{Scalar F}.
Local Open Scope scalar_scope.

(** The [i]-th point of a 2xN array of coordinates. *)
Definition point (pts : matrix F) (i : nat) : option (F * F) :=
  match pts with
  | [xs; ys] =>
      match xs !! i, ys !! i with
      | Some x, Some y => Some (x, y)
      | _, _ => None
      end
  | _ => None
  end.

(** "append a 1 to each 2D point" *)
Definition homogeneous (p : F * F) : vector F := [p.1; p.2; s_one].

(** "multiply by H" *)
Definition mat_vec (M : matrix F) (v : vector F) : vector F :=
  (λ row, dot row v) <$> M.

(** "dehomogenize by dividing the first two rows by the third" *)
Definition dehomogenize (v : vector F) : option (F * F) :=
  match v with
  | [x; y; w] => Some (x / w, y / w)
  | _ => None
  end.

Definition euclidean_distance (p q : F * F) : F :=
  s_sqrt ((p.1 - q.1) * (p.1 - q.1) + (p.2 - q.2) * (p.2 - q.2)).

(** "the Euclidean distance between the dehomogenized projection and the
    corresponding point in pts2" *)
Definition reprojection_error (H0 : matrix F) (p q : F * F) : option F :=
  match dehomogenize (mat_vec H0 (homogeneous p)) with
  | Some p' => Some (euclidean_distance p' q)
  | None => None
  end.

(** "the number of points whose error is below [threshold]" *)
Definition count_below (errs : vector F) (threshold : F) : Z :=
  Z.of_nat (length (filter (λ e, s_ltb e threshold = true) errs)).

(** The two rows of the design matrix for one correspondence. *)
Definition dlt_rows (a b : F * F) : matrix F :=
  [[a.1; a.2; s_one; s_zero; s_zero; s_zero; - a.1 * b.1; - a.2 * b.1; - b.1];
   [s_zero; s_zero; s_zero; a.1; a.2; s_one; - a.1 * b.2; - a.2 * b.2; - b.2]].
End Specification.

(** ** Facts about the array operations *)

Section ArrayFacts.
Context {F : Type} `{Scalar F}.
Local Open Scope scalar_scope.

Lemma shape_2_inv (N : nat) (M : matrix F) :
  shape 2 N M → ∃ xs ys, M = [xs; ys] ∧ length xs = N ∧ length ys = N.
Proof.
  intros [Hlen Hrows].
  destruct M as [|xs [|ys [|? ?]]]; try discriminate.
  exists xs, ys. inversion Hrows as [|? ? ? Hys]; subst.
  inversion Hys; subst. done.
Qed.

Lemma shape_3_3_inv (M : matrix F) :
  shape 3 3 M →
  ∃ a b c d e f g h k, M = [[a; b; c]; [d; e; f]; [g; h; k]].
Proof.
  intros [Hlen Hrows].
  destruct M as [|r0 [|r1 [|r2 [|? ?]]]]; try discriminate.
  repeat match goal with
         | Hr : Forall _ (_ :: _) |- _ => inversion Hr; clear Hr; subst
         end.
  destruct r0 as [|? [|? [|? [|? ?]]]]; try discriminate.
  destruct r1 as [|? [|? [|? [|? ?]]]]; try discriminate.
  destruct r2 as [|? [|? [|? [|? ?]]]]; try discriminate.
  by repeat eexists.
Qed.

Lemma broadcast_same {A B : Type} (a : list A) (b : list B) :
  length a = length b → broadcast a b = Returned (zip a b).
Proof. intros Hl. unfold broadcast. by rewrite decide_True. Qed.

Lemma fmap_zip_with_op (op : F → F → F) (a b : vector F) :
  (λ xy : F * F, op xy.1 xy.2) <$> zip a b = zip_with op a b.
Proof.
  revert b. induction a as [|x a IH]; intros [|y b]; simpl; try done.
  by rewrite IH.
Qed.

Lemma elementwise_row_same (op : F → F → F) (a b : vector F) :
  length a = length b → elementwise_row op a b = Returned (zip_with op a b).
Proof.
  intros Hl. unfold elementwise_row. rewrite broadcast_same by done.
  simpl. by rewrite fmap_zip_with_op.
Qed.

Lemma vstack_same (A B : matrix F) :
  ncols A = ncols B → vstack A B = Returned (A ++ B).
Proof. intros Hc. unfold vstack. by rewrite decide_True. Qed.

Lemma matmul_returns (A B : matrix F) :
  Forall (λ row, length row = length B) A →
  matmul A B = Returned ((λ arow, row_times arow B) <$> A).
Proof. intros HA. unfold matmul. by rewrite decide_True. Qed.

Lemma length_row_times (r : vector F) (B : matrix F) :
  length (row_times r B) = ncols B.
Proof. unfold row_times. by rewrite length_fmap, length_seq. Qed.

Lemma lookup_row_times (r : vector F) (B : matrix F) (j : nat) :
  j < ncols B → row_times r B !! j = Some (dot r (col_of B j)).
Proof.
  intros Hj. unfold row_times.
  rewrite list_lookup_fmap, (proj2 (lookup_seq 0 (ncols B) j j)); done.
Qed.

(** A 2xN array against one row of N entries: the row is broadcast. *)
Lemma elementwise_2_1 (op : F → F → F) (v0 v1 w : vector F) :
  length v0 = length w → length v1 = length w →
  elementwise op [v0; v1] [w] = Returned [zip_with op v0 w; zip_with op v1 w].
Proof.
  intros H0 H1. unfold elementwise, broadcast. cbn [length].
  case_decide; [lia|].
  cbn [bind fmap list_fmap sequence fst snd].
  by rewrite !elementwise_row_same.
Qed.

(** Two 2xN arrays: cell by cell. *)
Lemma elementwise_2_2 (op : F → F → F) (a0 a1 b0 b1 : vector F) :
  length a0 = length b0 → length a1 = length b1 →
  elementwise op [a0; a1] [b0; b1] =
    Returned [zip_with op a0 b0; zip_with op a1 b1].
Proof.
  intros H0 H1. unfold elementwise, broadcast. cbn [length].
  case_decide; [|lia].
  cbn [bind zip zip_with fmap list_fmap sequence fst snd].
  by rewrite !elementwise_row_same.
Qed.

Lemma np_sum_from (l : list Z) (z : Z) : foldl Z.add z l = (z + foldl Z.add 0 l)%Z.
Proof.
  revert z. induction l as [|x l IH]; intros z; simpl; [lia|].
  rewrite (IH (z + x)%Z), (IH (0 + x)%Z). lia.
Qed.

(** The count is the number of entries that pass the comparison. *)
Lemma np_sum_where_lt (errs : vector F) (t : F) :
  np_sum (where_lt errs t) = count_below errs t.
Proof.
  unfold np_sum, where_lt, count_below.
  induction errs as [|e errs IH]; [done|].
  rewrite fmap_cons. cbn [foldl]. rewrite np_sum_from, IH, filter_cons.
  destruct (s_ltb e t); case_decide; try done; simpl length; lia.
Qed.

Lemma lookup_seq_0 (n i : nat) : i < n → seq 0 n !! i = Some i.
Proof. intros Hi. by apply lookup_seq. Qed.

Lemma nth_replicate_one (n i : nat) : i < n → nth i (replicate n s_one) s_zero = s_one.
Proof.
  intros Hi. apply nth_lookup_Some. by apply lookup_replicate_2.
Qed.
End ArrayFacts.

(** ** The reprojection scorer *)

Section Scoring.
Context {F : Type} `{Scalar F}.
Local Open Scope scalar_scope.

(** The error vector the vectorised code computes, for a 3-row [H] and
    2xN arrays: every array operation written out row by row. *)
Definition error_rows (r0 r1 r2 xs1 ys1 xs2 ys2 : vector F) : vector F :=
  let P := [xs1; ys1; replicate (length xs1) s_one] in
  let dx := zip_with s_sub (zip_with s_div (row_times r0 P) (row_times r2 P)) xs2 in
  let dy := zip_with s_sub (zip_with s_div (row_times r1 P) (row_times r2 P)) ys2 in
  s_sqrt <$> zip_with s_add ((λ x, x * x) <$> dx) ((λ x, x * x) <$> dy).

Lemma count_homography_inliers_returns (r0 r1 r2 xs1 ys1 xs2 ys2 : vector F) (thresh : F) :
  length r0 = 3 → length r1 = 3 → length r2 = 3 →
  length ys1 = length xs1 → length xs2 = length xs1 → length ys2 = length xs1 →
  count_homography_inliers [r0; r1; r2] [xs1; ys1] [xs2; ys2] thresh =
    Returned (np_sum (where_lt (error_rows r0 r1 r2 xs1 ys1 xs2 ys2) (thresh * thresh)),
              error_rows r0 r1 r2 xs1 ys1 xs2 ys2).
Proof.
  intros Hr0 Hr1 Hr2 Hy1 Hx2 Hy2.
  unfold count_homography_inliers.
  rewrite vstack_same by (simpl; by rewrite length_replicate).
  cbn [bind]. rewrite matmul_returns by (by repeat constructor).
  cbn [bind fmap list_fmap index lookup list_lookup take app ncols ones replicate].
  rewrite elementwise_2_1 by (by rewrite !length_row_times).
  cbn [bind].
  rewrite elementwise_2_2
    by (rewrite length_zip_with, !length_row_times; simpl; lia).
  reflexivity.
Qed.

Lemma col_of_points (xs ys : vector F) (i : nat) (x y : F) :
  xs !! i = Some x → ys !! i = Some y →
  col_of [xs; ys; replicate (length xs) s_one] i = [x; y; s_one].
Proof.
  intros Hx Hy. unfold col_of. cbn [fmap list_fmap].
  rewrite (nth_lookup_Some _ _ _ _ Hx), (nth_lookup_Some _ _ _ _ Hy).
  rewrite nth_replicate_one; [done|]. by eapply lookup_lt_Some.
Qed.


Lemma length_error_rows (r0 r1 r2 xs1 ys1 xs2 ys2 : vector F) :
  length ys1 = length xs1 → length xs2 = length xs1 → length ys2 = length xs1 →
  length (error_rows r0 r1 r2 xs1 ys1 xs2 ys2) = length xs1.
Proof.
  intros Hy1 Hx2 Hy2. unfold error_rows.
  rewrite length_fmap, length_zip_with, !length_fmap, !length_zip_with.
  rewrite !length_row_times. simpl. lia.
Qed.

Lemma point_lookup (N : nat) (xs ys : vector F) (i : nat) :
  length xs = N → length ys = N → i < N →
  ∃ x y, xs !! i = Some x ∧ ys !! i = Some y ∧ point [xs; ys] i = Some (x, y).
Proof.
  intros Hx Hy Hi.
  destruct (lookup_lt_is_Some_2 xs i) as [x Hxi]; [lia|].
  destruct (lookup_lt_is_Some_2 ys i) as [y Hyi]; [lia|].
  exists x, y. unfold point. by rewrite Hxi, Hyi.
Qed.

(** The count the code returns: the entries below [thresh * thresh]. *)
Lemma count_homography_inliers_count (N : nat) (H0 pts1 pts2 : matrix F) (thresh : F)
    (n : Z) (errs : vector F) :
  shape 3 3 H0 → shape 2 N pts1 → shape 2 N pts2 →
  count_homography_inliers H0 pts1 pts2 thresh = Returned (n, errs) →
  n = count_below errs (thresh * thresh).
Proof.
  intros HH (xs1 & ys1 & -> & Hx1 & Hy1)%shape_2_inv (xs2 & ys2 & -> & Hx2 & Hy2)%shape_2_inv.
  apply shape_3_3_inv in HH as (a & b & c & d & e & f & g & h & k & ->).
  rewrite count_homography_inliers_returns by (done || lia).
  intros [= <- <-]. apply np_sum_where_lt.
Qed.
End Scoring.

(** *** The error vector *)

Lemma dot3_real (a b c x y : R) : dot [a; b; c] [x; y; 1%R] = (a * x + b * y + c)%R.
Proof. unfold dot. cbn. ring. Qed.


(** ** The DLT solver *)

Section Solver.
Context {F : Type} `{Scalar F}.
Variable svd : matrix F → outcome (matrix F * vector F * matrix F).

(** The design matrix as the specification describes it: two rows for
    each correspondence, in order. *)
Definition design_matrix (pts1 pts2 : matrix F) : matrix F :=
  match pts1, pts2 with
  | [xs1; ys1], [xs2; ys2] => concat (zip_with dlt_rows (zip xs1 ys1) (zip xs2 ys2))
  | _, _ => []
  end.

Lemma for_each_app {I S : Type} (l1 l2 : list I) (body : S → I → outcome S) (s : S) :
  for_each (l1 ++ l2) body s = let* s' := for_each l1 body s in for_each l2 body s'.
Proof.
  revert s. induction l1 as [|i l1 IH]; intros s; simpl; [done|].
  destruct (body s i); simpl; [apply IH | done].
Qed.

Lemma column_2 (xs ys : vector F) (i : nat) (x y : F) :
  xs !! i = Some x → ys !! i = Some y → column [xs; ys] i = Returned [x; y].
Proof. intros Hx Hy. unfold column. cbn. by rewrite Hx, Hy. Qed.

Lemma column_2_out_of_range (xs ys : vector F) (i : nat) :
  length xs ≤ i → column [xs; ys] i = Raised IndexError.
Proof.
  intros Hi. unfold column. cbn. by rewrite (lookup_ge_None_2 xs i Hi).
Qed.

Lemma find_homography_step_returns (xs1 ys1 xs2 ys2 : vector F) (A : matrix F)
    (i : nat) (a b : F * F) :
  zip xs1 ys1 !! i = Some a → zip xs2 ys2 !! i = Some b →
  find_homography_step [xs1; ys1] [xs2; ys2] A i = Returned (A ++ dlt_rows a b).
Proof.
  intros Ha Hb.
  apply lookup_zip_with_Some in Ha as (x1 & y1 & -> & Hx1 & Hy1).
  apply lookup_zip_with_Some in Hb as (x2 & y2 & -> & Hx2 & Hy2).
  unfold find_homography_step.
  rewrite (column_2 _ _ _ _ _ Hx1 Hy1), (column_2 _ _ _ _ _ Hx2 Hy2).
  cbn. by rewrite <- app_assoc.
Qed.

(** The loop after [m] iterations: the rows of the first [m] correspondences. *)
Lemma find_homography_loop (xs1 ys1 xs2 ys2 : vector F) (m : nat) :
  m ≤ length (zip xs1 ys1) → m ≤ length (zip xs2 ys2) →
  for_each (seq 0 m) (find_homography_step [xs1; ys1] [xs2; ys2]) [] =
    Returned (concat (take m (zip_with dlt_rows (zip xs1 ys1) (zip xs2 ys2)))).
Proof.
  induction m as [|m IH]; intros H1 H2; [done|].
  rewrite seq_S, for_each_app, IH by lia. cbn [bind for_each Nat.add].
  destruct (lookup_lt_is_Some_2 (zip xs1 ys1) m) as [a Ha]; [lia|].
  destruct (lookup_lt_is_Some_2 (zip xs2 ys2) m) as [b Hb]; [lia|].
  rewrite (find_homography_step_returns _ _ _ _ _ _ _ _ Ha Hb). cbn [bind].
  rewrite (take_S_r _ m (dlt_rows a b)).
  - by rewrite concat_app, concat_cons, app_nil_r.
  - rewrite lookup_zip_with, Ha, Hb. done.
Qed.

Lemma length_zip_same {A B : Type} (N : nat) (l : list A) (k : list B) :
  length l = N → length k = N → length (zip l k) = N.
Proof. intros Hl Hk. rewrite length_zip_with. lia. Qed.

(** With at least as many points in [pts2] as in [pts1], the loop builds the
    design matrix of the first [N] correspondences. *)
Lemma find_homography_builds (N M : nat) (pts1 pts2 : matrix F) :
  shape 2 N pts1 → shape 2 M pts2 → N ≤ M →
  for_each (seq 0 (ncols pts1)) (find_homography_step pts1 pts2) [] =
    Returned (design_matrix pts1 pts2).
Proof.
  intros (xs1 & ys1 & -> & Hx1 & Hy1)%shape_2_inv
         (xs2 & ys2 & -> & Hx2 & Hy2)%shape_2_inv HNM.
  cbn [ncols design_matrix].
  pose proof (length_zip_same N xs1 ys1 Hx1 Hy1) as Hz1.
  pose proof (length_zip_same M xs2 ys2 Hx2 Hy2) as Hz2.
  rewrite find_homography_loop by lia.
  rewrite take_ge; [done|]. rewrite length_zip_with. lia.
Qed.

(** With fewer points in [pts2], reading column [M] of [pts2] fails. *)
Lemma find_homography_short (N M : nat) (pts1 pts2 : matrix F) :
  shape 2 N pts1 → shape 2 M pts2 → M < N →
  for_each (seq 0 (ncols pts1)) (find_homography_step pts1 pts2) [] =
    Raised IndexError.
Proof.
  intros (xs1 & ys1 & -> & Hx1 & Hy1)%shape_2_inv
         (xs2 & ys2 & -> & Hx2 & Hy2)%shape_2_inv HNM.
  cbn [ncols].
  pose proof (length_zip_same N xs1 ys1 Hx1 Hy1) as Hz1.
  pose proof (length_zip_same M xs2 ys2 Hx2 Hy2) as Hz2.
  replace (length xs1) with (M + S (N - M - 1)) by lia.
  rewrite seq_app, for_each_app, find_homography_loop by lia.
  cbn [bind for_each seq Nat.add].
  destruct (lookup_lt_is_Some_2 xs1 M) as [x1 Hx1M]; [lia|].
  destruct (lookup_lt_is_Some_2 ys1 M) as [y1 Hy1M]; [lia|].
  unfold find_homography_step at 1.
  rewrite (column_2 _ _ _ _ _ Hx1M Hy1M). cbn [bind unpack2].
  rewrite column_2_out_of_range by lia. done.
Qed.

Lemma design_matrix_lookup (z1 z2 : list (F * F)) (i : nat) (a b : F * F) :
  z1 !! i = Some a → z2 !! i = Some b →
  concat (zip_with dlt_rows z1 z2) !! (2 * i) = dlt_rows a b !! 0 ∧
  concat (zip_with dlt_rows z1 z2) !! (2 * i + 1) = dlt_rows a b !! 1.
Proof.
  revert z2 i. induction z1 as [|p z1 IH]; intros [|q z2] [|i] Ha Hb; try done.
  - injection Ha as ->. injection Hb as ->. done.
  - replace (2 * S i) with (S (S (2 * i))) by lia.
    replace (S (S (2 * i)) + 1) with (S (S (2 * i + 1))) by lia.
    cbn [zip_with concat dlt_rows app lookup list_lookup].
    by apply IH.
Qed.

Lemma design_matrix_shape (z1 z2 : list (F * F)) :
  shape (2 * length (zip_with dlt_rows z1 z2)) 9 (concat (zip_with dlt_rows z1 z2)).
Proof.
  unfold shape. revert z2. induction z1 as [|p z1 IH]; intros [|q z2]; try done.
  destruct (IH z2) as [Hl Hr]. cbn [zip_with concat dlt_rows app length].
  split; [rewrite Hl; lia | by repeat constructor].
Qed.

Lemma point_zip (xs ys : vector F) (i : nat) (p : F * F) :
  point [xs; ys] i = Some p → zip xs ys !! i = Some p.
Proof.
  unfold point. intros Hp. rewrite lookup_zip_with.
  destruct (xs !! i), (ys !! i); try done.
Qed.

(** C2.  For 2xN arrays [pts1] and [pts2] (any N, so also N >= 4),
    [find_homography] builds a 2N-by-9 matrix [A] whose rows 2i and 2i+1,
    for source (xa, ya) and target (xb, yb), are
    [xa, ya, 1, 0, 0, 0, -xa*xb, -ya*xb, -xb] and
    [0, 0, 0, xa, ya, 1, -xa*yb, -ya*yb, -yb], passes [A] to the SVD,
    and returns the last row of [Vh] reshaped 3x3 row by row. *)
Theorem find_homography_dlt (N : nat) (pts1 pts2 : matrix F) :
  shape 2 N pts1 → shape 2 N pts2 →
  ∃ A : matrix F,
    shape (2 * N) 9 A ∧
    (∀ i xa ya xb yb,
       point pts1 i = Some (xa, ya) → point pts2 i = Some (xb, yb) →
       A !! (2 * i) =
         Some [xa; ya; s_one; s_zero; s_zero; s_zero; - xa * xb; - ya * xb; - xb]%sc ∧
       A !! (2 * i + 1) =
         Some [s_zero; s_zero; s_zero; xa; ya; s_one; - xa * yb; - ya * yb; - yb]%sc) ∧
    find_homography svd pts1 pts2 =
      (let* '(U, Sigma, Vh) := svd A in let* h := last_row Vh in reshape33 h) ∧
    (∀ U Sigma Vh h0 h1 h2 h3 h4 h5 h6 h7 h8,
       svd A = Returned (U, Sigma, Vh) →
       last Vh = Some [h0; h1; h2; h3; h4; h5; h6; h7; h8] →
       find_homography svd pts1 pts2 =
         Returned [[h0; h1; h2]; [h3; h4; h5]; [h6; h7; h8]]).
Proof.
  intros Hs1 Hs2.
  assert (find_homography svd pts1 pts2 =
            (let* '(U, Sigma, Vh) := svd (design_matrix pts1 pts2) in
             let* h := last_row Vh in reshape33 h)) as Hfh.
  { unfold find_homography.
    by rewrite (find_homography_builds N N pts1 pts2 Hs1 Hs2). }
  exists (design_matrix pts1 pts2).
  apply shape_2_inv in Hs1 as (xs1 & ys1 & -> & Hx1 & Hy1).
  apply shape_2_inv in Hs2 as (xs2 & ys2 & -> & Hx2 & Hy2).
  split; [|split; [|split]].
  - cbn [design_matrix].
    pose proof (design_matrix_shape (zip xs1 ys1) (zip xs2 ys2)) as Hsh.
    rewrite length_zip_with, !length_zip_with in Hsh.
    replace N with ((length xs1 `min` length ys1) `min` (length xs2 `min` length ys2))
      by lia.
    exact Hsh.
  - intros i xa ya xb yb Ha%point_zip Hb%point_zip.
    exact (design_matrix_lookup _ _ i _ _ Ha Hb).
  - exact Hfh.
  - intros U Sigma Vh h0 h1 h2 h3 h4 h5 h6 h7 h8 Hsvd Hlast.
    rewrite Hfh, Hsvd. cbn [bind]. unfold last_row. by rewrite Hlast.
Qed.

(** C7, as the code has it.  [find_homography] checks nothing about its
    input.  For a 2xN [pts1] and a 2xM [pts2]: when N <= M it pairs the
    first N points (the rest of [pts2] is never read) and returns what the
    SVD step yields, whatever N (also N < 4) and whatever the coordinates;
    when M < N it raises [IndexError] on reading [pts2]. *)
Theorem find_homography_no_validation (N M : nat) (pts1 pts2 : matrix F) :
  shape 2 N pts1 → shape 2 M pts2 →
  (N ≤ M →
     find_homography svd pts1 pts2 =
       (let* '(U, Sigma, Vh) := svd (design_matrix pts1 pts2) in
        let* h := last_row Vh in reshape33 h)) ∧
  (M < N → find_homography svd pts1 pts2 = Raised IndexError).
Proof.
  intros Hs1 Hs2. split; intros HNM; unfold find_homography.
  - by rewrite (find_homography_builds N M pts1 pts2 Hs1 Hs2 HNM).
  - by rewrite (find_homography_short N M pts1 pts2 Hs1 Hs2 HNM).
Qed.
End Solver.

(** ** The RANSAC loop *)

Section Ransac.
Context {F : Type} `{Scalar F}.
Variable svd : matrix F → outcome (matrix F * vector F * matrix F).
Variable rng : Type.
Variable random_interval : rng → nat → nat * rng.

Variables (pts1 pts2 : matrix F) (thresh : F).

#[local] Abbreviation trial_of := (ransac_trial svd rng random_interval pts1 pts2 thresh).
#[local] Abbreviation body := (ransac_body svd rng random_interval pts1 pts2 thresh).
#[local] Abbreviation loop := (ransac_loop svd rng random_interval pts1 pts2 thresh).
#[local] Abbreviation state := (@ransac_state F rng).

(** *** The sampler *)

(** The bounded draw stays within its bound. *)
Hypothesis random_interval_bound : ∀ g m, (random_interval g m).1 ≤ m.

Lemma swap_permutation (x : list nat) (i j : nat) :
  i < length x → j < length x → swap x i j ≡ₚ x.
Proof.
  intros Hi Hj. unfold swap.
  destruct (lookup_lt_is_Some_2 x i Hi) as [a Ha].
  destruct (lookup_lt_is_Some_2 x j Hj) as [b Hb].
  rewrite (nth_lookup_Some _ _ _ _ Ha), (nth_lookup_Some _ _ _ _ Hb).
  by apply Permutation_insert_swap.
Qed.

Lemma shuffle_from_permutation (i : nat) (g : rng) (x : list nat) :
  i ≤ length x - 1 → (shuffle_from rng random_interval i g x).1 ≡ₚ x.
Proof using random_interval_bound.
  revert g x. induction i as [|i IH]; intros g x Hi; [done|].
  cbn [shuffle_from].
  pose proof (random_interval_bound g (S i)) as Hj.
  destruct (random_interval g (S i)) as [j g']. cbn [fst] in Hj.
  assert (swap x (S i) j ≡ₚ x) as Hsw by (apply swap_permutation; lia).
  rewrite IH; [done|]. rewrite (Permutation_length Hsw). lia.
Qed.

Lemma permutation_permutation (g : rng) (n : nat) :
  (permutation rng random_interval g n).1 ≡ₚ seq 0 n.
Proof using random_interval_bound.
  unfold permutation, shuffle. by apply shuffle_from_permutation.
Qed.

(** [choice(n, k, replace=False)] returns [k] distinct indices below [n],
    and raises [ValueError] when the population is too small. *)
Lemma choice_sample (g g' : rng) (n k : nat) (sample : list nat) :
  choice rng random_interval g n k = Returned (sample, g') →
  length sample = k ∧ NoDup sample ∧ Forall (λ j, j < n) sample.
Proof using random_interval_bound.
  unfold choice. case_decide as Hnk; [done|].
  pose proof (permutation_permutation g n) as Hp.
  destruct (permutation rng random_interval g n) as [p g'']. cbn [fst] in Hp.
  intros [= <- <-].
  assert (length p = n) as Hlen by (by rewrite (Permutation_length Hp), length_seq).
  split; [|split].
  - rewrite length_take. lia.
  - eapply sublist_NoDup; [|apply sublist_take].
    rewrite Hp. apply NoDup_seq.
  - apply Forall_forall. intros j Hj.
    apply elem_of_take in Hj as (i & Hi & _).
    assert (j ∈ seq 0 n) as Hin by (rewrite <- Hp; by eapply list_elem_of_lookup_2).
    apply elem_of_seq in Hin. lia.
Qed.

Lemma choice_raises (g : rng) (n k : nat) :
  n < k → choice rng random_interval g n k = Raised ValueError.
Proof. intros Hnk. unfold choice. by rewrite decide_True. Qed.

Lemma choice_total (g : rng) (n k : nat) :
  k ≤ n → ∃ sample g', choice rng random_interval g n k = Returned (sample, g').
Proof.
  intros Hnk. unfold choice. rewrite decide_False by lia.
  destruct (permutation rng random_interval g n) as [p g']. by eexists _, _.
Qed.

(** *** One iteration *)

Lemma ransac_trial_inv (g g' : rng) (t : trial) :
  trial_of g = Returned (t, g') →
  choice rng random_interval g (ncols pts1) 4 = Returned (idx t, g') ∧
  count_homography_inliers (candidate t) pts1 pts2 thresh =
    Returned (local_ninliers t, local_errors t).
Proof.
  unfold ransac_trial.
  destruct (choice rng random_interval g (ncols pts1) 4) as [[sample g1]|]; [|done].
  cbn [bind].
  destruct (take_columns pts1 sample); [|done]. cbn [bind].
  destruct (take_columns pts2 sample); [|done]. cbn [bind].
  destruct (find_homography svd _ _) as [H0|]; [|done]. cbn [bind].
  destruct (count_homography_inliers H0 pts1 pts2 thresh) as [[n e]|] eqn:Hc; [|done].
  cbn [bind]. by intros [= <- <-].
Qed.

Lemma ransac_body_inv (st st' : state) :
  body st = Returned st' →
  ∃ t g', trial_of (gen st) = Returned (t, g') ∧ st' = ransac_update st t g'.
Proof.
  unfold ransac_body. destruct (trial_of (gen st)) as [[t g']|]; [|done].
  cbn [bind]. intros [= <-]. by eexists _, _.
Qed.

Lemma ransac_update_trials (st : state) (t : trial) (g' : rng) :
  trials (ransac_update st t g') = t :: trials st.
Proof. unfold ransac_update. by destruct (_ >? _)%Z. Qed.

Lemma ransac_update_ninliers (st : state) (t : trial) (g' : rng) :
  (ninliers st ≤ ninliers (ransac_update st t g'))%Z.
Proof.
  unfold ransac_update. destruct (_ >? _)%Z eqn:Hgt; cbn; lia.
Qed.

(** *** The loop *)

Lemma ransac_loop_add (j k : nat) (st : state) :
  loop (j + k) st = let* sj := loop j st in loop k sj.
Proof.
  revert st. induction j as [|j IH]; intros st; [done|].
  cbn [Nat.add ransac_loop]. destruct (body st); cbn [bind]; [apply IH|done].
Qed.

Lemma ransac_loop_ninliers (k : nat) (st st' : state) :
  loop k st = Returned st' → (ninliers st ≤ ninliers st')%Z.
Proof.
  revert st. induction k as [|k IH]; intros st; cbn [ransac_loop].
  - intros [= <-]. lia.
  - destruct (body st) as [s1|] eqn:Hb; [|done]. cbn [bind]. intros Hk.
    apply ransac_body_inv in Hb as (t & g' & _ & ->).
    pose proof (ransac_update_ninliers st t g'). apply IH in Hk. lia.
Qed.

(** C3.  One iteration replaces the best-so-far triple by the trial's
    triple when the trial's count is strictly greater than the best count
    and leaves it as it is otherwise (so a tie replaces nothing); and the
    best count after [j] iterations is at most the best count after
    [j + k] iterations. *)
Theorem ransac_best_never_regresses :
  (∀ st st' : state,
     ransac_body svd rng random_interval pts1 pts2 thresh st = Returned st' →
     ∃ t, trials st' = t :: trials st ∧
       ((local_ninliers t > ninliers st)%Z →
          Hbest st' = Some (candidate t) ∧ ninliers st' = local_ninliers t ∧
          errors st' = Some (local_errors t)) ∧
       ((local_ninliers t ≤ ninliers st)%Z →
          Hbest st' = Hbest st ∧ ninliers st' = ninliers st ∧
          errors st' = errors st)) ∧
  (∀ (j k : nat) (st sj sk : state),
     ransac_loop svd rng random_interval pts1 pts2 thresh j st = Returned sj →
     ransac_loop svd rng random_interval pts1 pts2 thresh (j + k) st = Returned sk →
     (ninliers sj ≤ ninliers sk)%Z).
Proof.
  split.
  - intros st st' (t & g' & _ & ->)%ransac_body_inv.
    exists t. split; [apply ransac_update_trials|].
    unfold ransac_update.
    destruct (local_ninliers t >? ninliers st)%Z eqn:Hgt; cbn; split; try done; lia.
  - intros j k st sj sk Hj Hjk.
    rewrite ransac_loop_add, Hj in Hjk. cbn [bind] in Hjk.
    by eapply ransac_loop_ninliers.
Qed.

(** The reported triple was computed from the reported matrix. *)
Definition consistent (st : state) : Prop :=
  match Hbest st with
  | Some Hb => ∃ errs, errors st = Some errs ∧
      count_homography_inliers Hb pts1 pts2 thresh = Returned (ninliers st, errs)
  | None => True
  end.

Lemma ransac_body_consistent (st st' : state) :
  consistent st → body st = Returned st' → consistent st'.
Proof.
  intros Hc (t & g' & [_ Ht]%ransac_trial_inv & ->)%ransac_body_inv.
  unfold ransac_update, consistent in *.
  destruct (_ >? _)%Z; cbn; [by eexists|done].
Qed.

Lemma ransac_loop_consistent (k : nat) (st st' : state) :
  consistent st → loop k st = Returned st' → consistent st'.
Proof.
  revert st. induction k as [|k IH]; intros st Hc; cbn [ransac_loop].
  - by intros [= <-].
  - destruct (body st) as [s1|] eqn:Hb; [|done]. cbn [bind].
    apply IH. by eapply ransac_body_consistent.
Qed.

(** C10.  When the call returns a best homography [Hb] with count [n] and
    errors [e], then [(n, e)] is what [count_homography_inliers] returns
    for [Hb] on the whole of [pts1], [pts2] with the same threshold. *)
Theorem ransac_result_consistent (niter : Z) (g g' : rng) (Hb : matrix F)
    (n : Z) (e : option (vector F)) :
  find_homography_RANSAC svd rng random_interval pts1 pts2 niter thresh g =
    Returned (Some Hb, n, e, g') →
  ∃ errs, e = Some errs ∧
    count_homography_inliers Hb pts1 pts2 thresh = Returned (n, errs).
Proof.
  unfold find_homography_RANSAC.
  destruct (loop (Z.to_nat niter) (ransac_init g)) as [st|] eqn:Hl; [|done].
  cbn [bind]. intros [= HH <- <- <-].
  apply ransac_loop_consistent in Hl; [|done].
  unfold consistent in Hl. by rewrite HH in Hl.
Qed.

(** *** The trials of a call *)

(** [trial_chain g ts g']: started on the generator state [g], the trials
    [ts] run one after the other, earliest first, each of them returning
    and each starting from the state the one before left; the last one
    leaves the state [g']. *)
Inductive trial_chain : rng → list (trial (F := F)) → rng → Prop :=
  | chain_done (g : rng) : trial_chain g [] g
  | chain_step (g g' g'' : rng) (t : trial) (ts : list trial) :
      ransac_trial svd rng random_interval pts1 pts2 thresh g = Returned (t, g') →
      trial_chain g' ts g'' →
      trial_chain g (t :: ts) g''.

(** A trial's sample: four pairwise distinct column indices of [pts1]. *)
Definition sample_ok (t : trial (F := F)) : Prop :=
  length (idx t) = 4 ∧ NoDup (idx t) ∧ Forall (λ j, j < ncols pts1) (idx t).

Lemma ransac_update_gen (st : state) (t : trial) (g' : rng) :
  gen (ransac_update st t g') = g'.
Proof. unfold ransac_update. by destruct (_ >? _)%Z. Qed.

Lemma ransac_loop_chain (k : nat) (st st' : state) :
  loop k st = Returned st' →
  ∃ ts, trial_chain (gen st) ts (gen st') ∧ length ts = k.
Proof.
  revert st. induction k as [|k IH]; intros st; cbn [ransac_loop].
  - intros [= <-]. exists []. split; [constructor|done].
  - destruct (body st) as [s1|] eqn:Hb; [|done]. cbn [bind]. intros Hk.
    apply ransac_body_inv in Hb as (t & g' & Ht & ->).
    apply IH in Hk as (ts & Hc & Hlen). rewrite ransac_update_gen in Hc.
    exists (t :: ts). split; [by econstructor|cbn [length]; lia].
Qed.

Lemma ransac_loop_chain_raised (k : nat) (st : state) (e : exn) :
  loop k st = Raised e →
  ∃ ts g1, trial_chain (gen st) ts g1 ∧ length ts < k ∧ trial_of g1 = Raised e.
Proof.
  revert st. induction k as [|k IH]; intros st; cbn [ransac_loop]; [done|].
  unfold ransac_body.
  destruct (trial_of (gen st)) as [[t g']|e'] eqn:Ht; cbn [bind].
  - intros Hk. apply IH in Hk as (ts & g1 & Hc & Hlen & Hr).
    rewrite ransac_update_gen in Hc.
    exists (t :: ts), g1. split; [by econstructor|]. split; [cbn [length]; lia|done].
  - intros [= ->]. exists [], (gen st). split; [constructor|]. split; [cbn; lia|done].
Qed.

Lemma trial_chain_samples (g g' : rng) (ts : list trial) :
  trial_chain g ts g' → Forall sample_ok ts.
Proof using random_interval_bound.
  induction 1 as [|g g' g'' t ts Ht _ IH]; constructor; [|done].
  apply ransac_trial_inv in Ht as [Hch _]. by apply choice_sample in Hch.
Qed.

Lemma trial_chain_none (g g' : rng) (ts : list trial) :
  trial_chain g ts g' →
  Forall (λ t, (local_ninliers t ≤ 0)%Z) ts →
  ∀ st, gen st = g → Hbest st = None → ninliers st = 0%Z → errors st = None →
  ∃ st', loop (length ts) st = Returned st' ∧ gen st' = g' ∧
         Hbest st' = None ∧ ninliers st' = 0%Z ∧ errors st' = None.
Proof.
  induction 1 as [g|g g' g'' t ts Ht _ IH]; intros Hall st Hg HH Hn He.
  - exists st. by rewrite Hg.
  - apply Forall_cons in Hall as [Hle Hall].
    cbn [length ransac_loop]. unfold ransac_body. rewrite Hg, Ht. cbn [bind].
    apply (IH Hall); [apply ransac_update_gen|..];
      unfold ransac_update; rewrite Hn;
      destruct (local_ninliers t >? 0)%Z eqn:Hgt; try lia; done.
Qed.

(** C9.  A call that returns has run exactly [niter] trials (none for a
    negative [niter]), one after the other from the generator state it
    was given to the one it hands back; a call that raises has run fewer,
    and raises what the next trial raises.  In both cases the sample of
    every trial run is made of exactly 4 indices, pairwise distinct
    (drawn without replacement), each the index of a correspondence. *)
Theorem ransac_runs_niter_trials (niter : Z) (g : rng) :
  (∀ Hb n e g',
     find_homography_RANSAC svd rng random_interval pts1 pts2 niter thresh g =
       Returned (Hb, n, e, g') →
     ∃ ts, trial_chain g ts g' ∧ length ts = Z.to_nat niter ∧
           Forall (λ t, length (idx t) = 4 ∧ NoDup (idx t) ∧
                        Forall (λ j, j < ncols pts1) (idx t)) ts) ∧
  (∀ e,
     find_homography_RANSAC svd rng random_interval pts1 pts2 niter thresh g = Raised e →
     ∃ ts g1, trial_chain g ts g1 ∧ length ts < Z.to_nat niter ∧
              ransac_trial svd rng random_interval pts1 pts2 thresh g1 = Raised e ∧
              Forall (λ t, length (idx t) = 4 ∧ NoDup (idx t) ∧
                           Forall (λ j, j < ncols pts1) (idx t)) ts).
Proof using random_interval_bound.
  unfold find_homography_RANSAC. split.
  - intros Hb n e g'.
    destruct (loop (Z.to_nat niter) (ransac_init g)) as [st|] eqn:Hl; [|done].
    cbn [bind]. intros [= _ _ _ <-].
    apply ransac_loop_chain in Hl as (ts & Hc & Hlen). cbn [ransac_init gen] in Hc.
    exists ts. split; [done|]. split; [done|]. exact (trial_chain_samples _ _ _ Hc).
  - intros e.
    destruct (loop (Z.to_nat niter) (ransac_init g)) as [st|e'] eqn:Hl; [done|].
    cbn [bind]. intros [= ->].
    apply ransac_loop_chain_raised in Hl as (ts & g1 & Hc & Hlen & Hr).
    cbn [ransac_init gen] in Hc.
    exists ts, g1. split; [done|]. split; [done|]. split; [done|].
    exact (trial_chain_samples _ _ _ Hc).
Qed.

(** C5, amended.  When the [niter] trials of a call all complete, every
    one of them with an inlier count of 0, the call has run them all and
    returns, as an ordinary result, no homography, the count 0 and no
    error vector, together with the generator state the last trial
    left. *)
Theorem ransac_no_model_after_niter_trials (niter : Z) (g g' : rng) (ts : list trial) :
  trial_chain g ts g' →
  length ts = Z.to_nat niter →
  Forall (λ t, (local_ninliers t ≤ 0)%Z) ts →
  find_homography_RANSAC svd rng random_interval pts1 pts2 niter thresh g =
    Returned (None, 0%Z, None, g').
Proof.
  intros Hc Hlen Hall. unfold find_homography_RANSAC. rewrite <- Hlen.
  destruct (trial_chain_none _ _ _ Hc Hall (ransac_init g))
    as (st & Hl & Hg & HH & Hn & He); try done.
  rewrite Hl. cbn [bind]. by rewrite Hg, HH, Hn, He.
Qed.

(** With fewer than 4 correspondences the first trial raises. *)
Lemma ransac_too_few_points (k : nat) (st : state) :
  ncols pts1 < 4 → loop (S k) st = Raised ValueError.
Proof.
  intros Hn. cbn [ransac_loop]. unfold ransac_body, ransac_trial.
  by rewrite choice_raises.
Qed.
End Ransac.

(** ** The error metric *)

Section ErrorMetric.
Context {F : Type} `{Scalar F}.

Lemma elementwise_3_3 (op : F → F → F) (a0 a1 a2 b0 b1 b2 : vector F) :
  length a0 = length b0 → length a1 = length b1 → length a2 = length b2 →
  elementwise op [a0; a1; a2] [b0; b1; b2] =
    Returned [zip_with op a0 b0; zip_with op a1 b1; zip_with op a2 b2].
Proof.
  intros H0 H1 H2. unfold elementwise, broadcast. cbn [length].
  case_decide; [|lia].
  cbn [bind zip zip_with fmap list_fmap sequence fst snd].
  by rewrite !elementwise_row_same.
Qed.

(** The result depends on [H1] only through [H1 / H1[2,2]]. *)
Lemma homography_error_normalised (H1 H1' H2 : matrix F) (h1 h1' focal : F) :
  entry H1 2 2 = Returned h1 → entry H1' 2 2 = Returned h1' →
  div_scalar H1 h1 = div_scalar H1' h1' →
  homography_error H1 H2 focal = homography_error H1' H2 focal.
Proof.
  intros He He' Hn. unfold homography_error.
  rewrite He, He'. cbn [bind]. by rewrite Hn.
Qed.

(** The computation on two 3x3 arrays, every array operation carried out. *)
Lemma homography_error_3_3 (a b c d e f g h k a' b' c' d' e' f' g' h' k' focal : F) :
  homography_error [[a; b; c]; [d; e; f]; [g; h; k]]
                   [[a'; b'; c']; [d'; e'; f']; [g'; h'; k']] focal =
  let* f1 := py_div s_one focal in
  let* D1 := matmul (diag [f1; f1; s_one])
               [[a / k - a' / k'; b / k - b' / k'; c / k - c' / k'];
                [d / k - d' / k'; e / k - e' / k'; f / k - f' / k'];
                [g / k - g' / k'; h / k - h' / k'; k / k - k' / k']]%sc in
  let* D := matmul D1 (diag [focal; focal; s_one]) in
  Returned (norm D).
Proof.
  unfold homography_error. cbn [entry index lookup list_lookup bind].
  unfold div_scalar, map_cells. cbn [fmap list_fmap].
  by rewrite elementwise_3_3.
Qed.
End ErrorMetric.

(** *** In exact arithmetic *)

Section ExactArithmetic.
Local Open Scope R_scope.

Lemma scale_cancels (c k x : R) : c ≠ 0 → k ≠ 0 → c * x / (c * k) = x / k.
Proof. intros Hc Hk. by field. Qed.

(** C8, in exact real arithmetic.  For a 3x3 [H] with [H[2,2] ≠ 0], a
    scalar [c ≠ 0] and any focal length, [homography_error(c*H, H, f)]
    is [homography_error(H, H, f)]: the normalisation [H / H[2,2]]
    cancels the scale. *)
Theorem homography_error_scale_invariant_exact (H0 : matrix R) (c k focal : R) :
  shape 3 3 H0 → entry H0 2 2 = Returned k → k ≠ 0 → c ≠ 0 →
  homography_error (scale c H0) H0 focal = homography_error H0 H0 focal.
Proof.
  intros (a & b & c0 & d & e & f & g & h & k0 & ->)%shape_3_3_inv Hk Hk0 Hc.
  cbn in Hk. injection Hk as ->.
  apply (homography_error_normalised _ _ _ (c * k) k); [done..|].
  unfold div_scalar, scale, map_cells. cbn.
  by rewrite !scale_cancels.
Qed.
End ExactArithmetic.

(** *** In float64 *)

Section Float64.
Local Open Scope float_scope.

Lemma float_add_nan_r (x : float) : x + nan = nan.
Proof.
  apply Prim2SF_inj. rewrite add_spec. change (Prim2SF nan) with S754_nan.
  by destruct (Prim2SF x) as [[|]|[|]| |[|] ? ?].
Qed.

Lemma float_add_nan_l (x : float) : nan + x = nan.
Proof.
  apply Prim2SF_inj. rewrite add_spec. by change (Prim2SF nan) with S754_nan.
Qed.

Lemma float_sub_nan_r (x : float) : x - nan = nan.
Proof.
  apply Prim2SF_inj. rewrite sub_spec. change (Prim2SF nan) with S754_nan.
  by destruct (Prim2SF x) as [[|]|[|]| |[|] ? ?].
Qed.

Lemma float_sub_nan_l (x : float) : nan - x = nan.
Proof.
  apply Prim2SF_inj. rewrite sub_spec. by change (Prim2SF nan) with S754_nan.
Qed.

Lemma float_mul_nan_r (x : float) : x * nan = nan.
Proof.
  apply Prim2SF_inj. rewrite mul_spec. change (Prim2SF nan) with S754_nan.
  by destruct (Prim2SF x) as [[|]|[|]| |[|] ? ?].
Qed.

Lemma float_mul_nan_l (x : float) : nan * x = nan.
Proof.
  apply Prim2SF_inj. rewrite mul_spec. by change (Prim2SF nan) with S754_nan.
Qed.

(** [x == 0] holds of the two zeros only. *)
Lemma float_zero_cases (x : float) : PrimFloat.eqb x 0 = true → x = 0 ∨ x = -0.
Proof.
  rewrite FloatAxioms.eqb_spec. change (Prim2SF 0) with (S754_zero false).
  intros Hx. rewrite <- (SF2Prim_Prim2SF x).
  destruct (Prim2SF x) as [[|]|[|]| |[|] ? ?]; try discriminate; auto.
Qed.

Lemma float_div_self_zero (x : float) : PrimFloat.eqb x 0 = true → x / x = nan.
Proof. by intros [-> | ->]%float_zero_cases. Qed.

(** [M[2,2] == 0] *)
Definition degenerate (M : matrix float) : bool :=
  match entry M 2 2 with
  | Returned z => PrimFloat.eqb z 0
  | Raised _ => false
  end.
End Float64.

Ltac float_nan :=
  repeat first
    [ rewrite float_add_nan_r | rewrite float_add_nan_l
    | rewrite float_sub_nan_r | rewrite float_sub_nan_l
    | rewrite float_mul_nan_r | rewrite float_mul_nan_l ].

Section Float64Metric.
Local Open Scope float_scope.

Lemma homography_error_nan (a b c d e f g h k a' b' c' d' e' f' g' h' k' focal : float) :
  k / k = nan ∨ k' / k' = nan →
  homography_error [[a; b; c]; [d; e; f]; [g; h; k]]
                   [[a'; b'; c']; [d'; e'; f']; [g'; h'; k']] focal =
  if PrimFloat.eqb focal 0 then Raised ZeroDivisionError else Returned nan.
Proof.
  intros Hk. rewrite homography_error_3_3. unfold py_div.
  change (s_eqb focal s_zero) with (PrimFloat.eqb focal 0).
  destruct (PrimFloat.eqb focal 0); [done|].
  cbn [bind]. rewrite matmul_returns by (by repeat constructor). cbn [bind].
  rewrite matmul_returns by (by repeat constructor).
  cbn. destruct Hk as [-> | ->]; float_nan; reflexivity.
Qed.

(** C4, as the code has it.  There is no guard: for 3x3 arrays with
    [H1[2,2] == 0] or [H2[2,2] == 0] the division is carried out and the
    call returns NaN as an ordinary result (when [focal] is zero, the
    Python division [1/focal] raises [ZeroDivisionError]). *)
Theorem homography_error_degenerate (H1 H2 : matrix float) (focal : float) :
  shape 3 3 H1 → shape 3 3 H2 →
  degenerate H1 || degenerate H2 = true →
  homography_error H1 H2 focal =
    if PrimFloat.eqb focal 0 then Raised ZeroDivisionError else Returned nan.
Proof.
  intros (a & b & c & d & e & f & g & h & k & ->)%shape_3_3_inv
         (a' & b' & c' & d' & e' & f' & g' & h' & k' & ->)%shape_3_3_inv Hdeg.
  apply homography_error_nan.
  apply orb_true_iff in Hdeg as [Hk | Hk]; [left | right];
    apply float_div_self_zero; exact Hk.
Qed.
End Float64Metric.

(** ** Runs on concrete float64 inputs *)

Section Examples.
Local Open Scope float_scope.

Definition I3 : matrix float := [[1; 0; 0]; [0; 1; 0]; [0; 0; 1]].

(** A homography with [H[2,2] = 1]; and one with [H[2,2] = 0]. *)
Definition stretch : matrix float := [[3; 0; 0]; [0; 1; 0]; [0; 0; 1]].
Definition flat : matrix float := [[1; 0; 0]; [0; 1; 0]; [0; 0; 0]].

(** Four corners of a square, all matched to the origin. *)
Definition corners : matrix float := [[1; 1; -1; -1]; [1; -1; 1; -1]].
Definition origin : matrix float := [[0; 0; 0; 0]; [0; 0; 0; 0]].

(** An SVD oracle for the runs below.  The solver reads the last row of
    [Vh] only; the oracle answers with the 9x9 identity, whose last row
    (0, ..., 0, 1) is a null vector of every design matrix whose target
    points are all (0, 0): the last three columns of such a matrix are
    zero. *)
Definition svd_e9 (A : matrix float)
  : outcome (matrix float * vector float * matrix float) :=
  Returned ([], [], diag (replicate 9 1)).

(** A bit generator for the runs below: the state is a counter. *)
Definition counter_interval (g : nat) (m : nat) : nat * nat :=
  (g `mod` (m + 1), S g)%nat.

Lemma counter_interval_bound (g m : nat) : ((counter_interval g m).1 ≤ m)%nat.
Proof.
  unfold counter_interval. cbn [fst].
  pose proof (Nat.mod_upper_bound g (m + 1)). lia.
Qed.

Example find_homography_corners :
  find_homography svd_e9 corners origin = Returned [[0; 0; 0]; [0; 0; 0]; [0; 0; 1]].
Proof. vm_compute. reflexivity. Qed.

Example ransac_corners :
  find_homography_RANSAC svd_e9 nat counter_interval corners origin 3 1 7%nat =
    Returned (Some [[0; 0; 0]; [0; 0; 0]; [0; 0; 1]], 4%Z, Some [0; 0; 0; 0], 16%nat).
Proof. vm_compute. reflexivity. Qed.

Example ransac_too_few : ∀ niter,
  (0 < niter)%Z →
  find_homography_RANSAC svd_e9 nat counter_interval [[1; 2]; [1; 2]] origin niter 1 7%nat =
    Raised ValueError.
Proof.
  intros niter Hn. unfold find_homography_RANSAC.
  destruct (Z.to_nat niter) as [|k] eqn:Hk; [lia|].
  rewrite ransac_too_few_points by (cbn; lia). reflexivity.
Qed.

(** C1 at a failing input: one correspondence with reprojection error 3
    and threshold 2.  The error is not below the threshold, yet the code
    counts the point, having compared 3 with 2 ** 2. *)
Theorem count_homography_inliers_squares_threshold :
  count_homography_inliers I3 [[0]; [0]] [[3]; [0]] 2 = Returned (1%Z, [3]) ∧
  count_below [3] 2 = 0%Z ∧
  count_below [3] (2 * 2) = 1%Z.
Proof. vm_compute. done. Qed.

(** C4 refuted: with [H1[2,2] = 0] the call returns NaN, it raises
    nothing. *)
Lemma homography_error_divides_silently :
  degenerate flat = true ∧ homography_error flat I3 1000 = Returned nan.
Proof. vm_compute. done. Qed.

(** C7 refuted: one source point, two target points.  The lengths differ
    and there are fewer than 4 points; the call builds a 2x9 matrix from
    the first pair, hands it to the SVD and returns a matrix. *)
Lemma find_homography_accepts_bad_input :
  (∀ svd, find_homography svd [[1]; [1]] [[0; 5]; [0; 5]] =
     (let* '(U, Sigma, Vh) := svd [[1; 1; 1; 0; 0; 0; -0; -0; -0];
                                   [0; 0; 0; 1; 1; 1; -0; -0; -0]] in
      let* h := last_row Vh in reshape33 h)) ∧
  find_homography svd_e9 [[1]; [1]] [[0; 5]; [0; 5]] =
    Returned [[0; 0; 0]; [0; 0; 0]; [0; 0; 1]].
Proof. split; [intros svd|]; vm_compute; reflexivity. Qed.

(** C8 refuted in float64: scaling [stretch] by 1/10 changes the result
    from 0 to 2^-51, because [(0.1 * 3) / (0.1 * 1)] rounds to
    3.0000000000000004. *)
Lemma homography_error_scale_rounding :
  entry stretch 2 2 = Returned 1 ∧
  PrimFloat.eqb (1 / 10) 0 = false ∧
  homography_error (scale (1 / 10) stretch) stretch 1000 = Returned 0x1p-51 ∧
  homography_error stretch stretch 1000 = Returned 0 ∧
  homography_error (scale (1 / 10) stretch) stretch 1000 ≠
    homography_error stretch stretch 1000.
Proof.
  assert (homography_error (scale (1 / 10) stretch) stretch 1000 = Returned 0x1p-51)
    as H1 by (vm_compute; reflexivity).
  assert (homography_error stretch stretch 1000 = Returned 0)
    as H2 by (vm_compute; reflexivity).
  split; [reflexivity|]. split; [reflexivity|].
  split; [exact H1|]. split; [exact H2|].
  rewrite H1, H2. intros Heq.
  apply (f_equal (λ o, match o with
                       | Returned x => PrimFloat.eqb x 0
                       | Raised _ => false
                       end)) in Heq.
  vm_compute in Heq. discriminate Heq.
Qed.
(** C5 refuted: three correspondences and ten iterations.  No trial
    achieves an inlier count, whatever the generator state: the draw of
    4 indices out of 3 raises.  The call does not return the 'none' state,
    it raises [ValueError]. *)
Lemma ransac_without_score_raises :
  ncols [[1; 2; 3]; [1; 2; 3]] = 3%nat ∧
  (∀ g : nat,
     ransac_trial svd_e9 nat counter_interval
       [[1; 2; 3]; [1; 2; 3]] [[0; 0; 0]; [0; 0; 0]] 1 g = Raised ValueError) ∧
  find_homography_RANSAC svd_e9 nat counter_interval
    [[1; 2; 3]; [1; 2; 3]] [[0; 0; 0]; [0; 0; 0]] 10 1 7%nat = Raised ValueError.
Proof.
  split; [reflexivity|]. split; [intros g|]; vm_compute; reflexivity.
Qed.
End Examples.

(** ** The theorems at concrete inputs *)

Ltac shape_of_literal := split; [reflexivity | repeat constructor].

Section Witnesses.
Local Open Scope float_scope.

Lemma find_homography_dlt_witness :
  ∃ A : matrix float,
    shape 8 9 A ∧
    A !! 0%nat = Some [1; 1; 1; 0; 0; 0; -0; -0; -0] ∧
    A !! 1%nat = Some [0; 0; 0; 1; 1; 1; -0; -0; -0] ∧
    find_homography svd_e9 corners origin =
      (let* '(U, Sigma, Vh) := svd_e9 A in let* h := last_row Vh in reshape33 h).
Proof.
  destruct (find_homography_dlt svd_e9 4 corners origin)
    as (A & Hshape & Hrows & Hcall & _); [shape_of_literal..|].
  exists A. split; [exact Hshape|].
  destruct (Hrows 0%nat 1 1 0 0) as [Hr0 Hr1]; [reflexivity..|].
  split; [exact Hr0|]. split; [exact Hr1|]. exact Hcall.
Defined.

Lemma homography_error_degenerate_witness :
  homography_error flat I3 1000 = Returned nan.
Proof.
  apply (homography_error_degenerate flat I3 1000);
    [shape_of_literal | shape_of_literal | reflexivity].
Defined.

Lemma ransac_no_model_after_niter_trials_witness :
  find_homography_RANSAC svd_e9 nat counter_interval corners origin 3 0 7%nat =
    Returned (None, 0%Z, None, 16%nat).
Proof.
  eapply (ransac_no_model_after_niter_trials svd_e9 nat counter_interval corners origin 0
            3 7%nat 16%nat).
  - eapply chain_step; [vm_compute; reflexivity|].
    eapply chain_step; [vm_compute; reflexivity|].
    eapply chain_step; [vm_compute; reflexivity|].
    apply chain_done.
  - reflexivity.
  - repeat constructor; by vm_compute.
Defined.

Lemma find_homography_no_validation_witness :
  find_homography svd_e9 [[1]; [1]] [[0; 5]; [0; 5]] =
    (let* '(U, Sigma, Vh) := svd_e9 (design_matrix [[1]; [1]] [[0; 5]; [0; 5]]) in
     let* h := last_row Vh in reshape33 h) ∧
  find_homography svd_e9 corners [[0]; [0]] = Raised IndexError.
Proof.
  split.
  - apply (find_homography_no_validation svd_e9 1 2 [[1]; [1]] [[0; 5]; [0; 5]]);
      [shape_of_literal | shape_of_literal | lia].
  - apply (find_homography_no_validation svd_e9 4 1 corners [[0]; [0]]);
      [shape_of_literal | shape_of_literal | lia].
Defined.

Lemma homography_error_scale_invariant_exact_witness :
  homography_error (scale 2%R [[1; 0; 0]; [0; 1; 0]; [0; 0; 1]]%R)
                   [[1; 0; 0]; [0; 1; 0]; [0; 0; 1]]%R 1000%R =
  homography_error [[1; 0; 0]; [0; 1; 0]; [0; 0; 1]]%R
                   [[1; 0; 0]; [0; 1; 0]; [0; 0; 1]]%R 1000%R.
Proof.
  apply (homography_error_scale_invariant_exact _ 2%R 1%R 1000%R);
    [shape_of_literal | reflexivity | lra | lra].
Defined.


Lemma ransac_runs_niter_trials_witness :
  ∃ ts, trial_chain svd_e9 nat counter_interval corners origin 1 7%nat ts 16%nat ∧
        length ts = Z.to_nat 3 ∧
        Forall (λ t, length (idx t) = 4%nat ∧ NoDup (idx t) ∧
                     Forall (λ j, (j < ncols corners)%nat) (idx t)) ts.
Proof.
  apply (proj1 (ransac_runs_niter_trials svd_e9 nat counter_interval corners origin 1
                  counter_interval_bound 3 7%nat)
           (Some [[0; 0; 0]; [0; 0; 0]; [0; 0; 1]]) 4%Z (Some [0; 0; 0; 0]) 16%nat).
  vm_compute. reflexivity.
Defined.

Lemma ransac_result_consistent_witness :
  ∃ errs, Some [0; 0; 0; 0] = Some errs ∧
    count_homography_inliers [[0; 0; 0]; [0; 0; 0]; [0; 0; 1]] corners origin 1 =
      Returned (4%Z, errs).
Proof.
  apply (ransac_result_consistent svd_e9 nat counter_interval corners origin 1
           3 7%nat 16%nat).
  vm_compute. reflexivity.
Defined.
End Witnesses.

(** * Further properties of the code *)

(** ** The scorer: what the threshold does, bounds, shape mismatch *)

Section ScorerFacts.
Context {F : Type} `{Scalar F}.

(** The threshold enters the computation through [thresh * thresh] in the
    last step only: the errors, and whether the call raises, do not depend
    on it. *)
Lemma count_homography_inliers_inv (H0 pts1 pts2 : matrix F) (thresh : F) :
  (∃ errs, ∀ t,
     count_homography_inliers H0 pts1 pts2 t = Returned (count_below errs (t * t)%sc, errs)) ∨
  (∃ e, ∀ t, count_homography_inliers H0 pts1 pts2 t = Raised e).
Proof.
  unfold count_homography_inliers.
  destruct (vstack pts1 _) as [P|e]; cbn [bind]; [|right; by exists e].
  destruct (matmul H0 P) as [Hp1|e]; cbn [bind]; [|right; by exists e].
  destruct (index Hp1 2) as [w|e]; cbn [bind]; [|right; by exists e].
  destruct (elementwise s_div _ _) as [proj|e]; cbn [bind]; [|right; by exists e].
  destruct (elementwise s_sub _ _) as [diff|e]; cbn [bind]; [|right; by exists e].
  left. eexists. intros t. by rewrite np_sum_where_lt.
Qed.

Lemma count_below_bounds (errs : vector F) (t : F) :
  (0 ≤ count_below errs t ≤ Z.of_nat (length errs))%Z.
Proof.
  unfold count_below. pose proof (length_filter (λ e, s_ltb e t = true) errs). lia.
Qed.

Lemma count_homography_inliers_length (N : nat) (H0 pts1 pts2 : matrix F) (thresh : F)
    (n : Z) (errs : vector F) :
  shape 3 3 H0 → shape 2 N pts1 → shape 2 N pts2 →
  count_homography_inliers H0 pts1 pts2 thresh = Returned (n, errs) →
  length errs = N.
Proof.
  intros HH (xs1 & ys1 & -> & Hx1 & Hy1)%shape_2_inv (xs2 & ys2 & -> & Hx2 & Hy2)%shape_2_inv.
  apply shape_3_3_inv in HH as (a & b & c & d & e & f & g & h & k & ->).
  rewrite count_homography_inliers_returns by (done || lia).
  intros [= _ <-]. rewrite length_error_rows; lia.
Qed.

Lemma count_homography_inliers_range (N : nat) (H0 pts1 pts2 : matrix F) (thresh : F)
    (n : Z) (errs : vector F) :
  shape 3 3 H0 → shape 2 N pts1 → shape 2 N pts2 →
  count_homography_inliers H0 pts1 pts2 thresh = Returned (n, errs) →
  (0 ≤ n ≤ Z.of_nat N)%Z.
Proof.
  intros HH H1 H2 Hc.
  pose proof (count_homography_inliers_length N _ _ _ _ _ _ HH H1 H2 Hc) as Hlen.
  destruct (count_homography_inliers_inv H0 pts1 pts2 thresh) as [[errs' He]|[e He]];
    rewrite He in Hc; [|done].
  injection Hc as <- <-. rewrite <- Hlen. apply count_below_bounds.
Qed.

(** X1.  The count returned for a 3x3 [H] and 2xN arrays lies between 0
    and N. *)
Theorem count_homography_inliers_bounds (N : nat) (H0 pts1 pts2 : matrix F) (thresh : F)
    (n : Z) (errs : vector F) :
  shape 3 3 H0 → shape 2 N pts1 → shape 2 N pts2 →
  count_homography_inliers H0 pts1 pts2 thresh = Returned (n, errs) →
  (0 ≤ n ≤ Z.of_nat N)%Z.
Proof. apply count_homography_inliers_range. Qed.

Lemma broadcast_mismatch {A B : Type} (a : list A) (b : list B) :
  length a ≠ length b → length a ≠ 1 → length b ≠ 1 →
  broadcast a b = Raised ValueError.
Proof.
  intros Hab Ha Hb. unfold broadcast. rewrite decide_False by done.
  destruct a as [|x [|x' a]], b as [|y [|y' b]]; done.
Qed.

Lemma broadcast_one_r {A B : Type} (a : list A) (y : B) :
  length a ≠ 1 → broadcast a [y] = Returned ((λ x, (x, y)) <$> a).
Proof.
  intros Ha. unfold broadcast. rewrite decide_False by done.
  destruct a as [|x [|x' a]]; done.
Qed.

(** The two rows [Hp1[0:2,:] / Hp1[2,:]] for a 3-row [H] and a 2xN [pts1]. *)
Definition projected_rows (r0 r1 r2 xs1 ys1 : vector F) : matrix F :=
  let P := [xs1; ys1; replicate (length xs1) s_one] in
  [zip_with s_div (row_times r0 P) (row_times r2 P);
   zip_with s_div (row_times r1 P) (row_times r2 P)].

Lemma count_homography_inliers_projected (r0 r1 r2 xs1 ys1 : vector F) (pts2 : matrix F)
    (thresh : F) :
  length r0 = 3 → length r1 = 3 → length r2 = 3 → length ys1 = length xs1 →
  count_homography_inliers [r0; r1; r2] [xs1; ys1] pts2 thresh =
    let* diff := elementwise s_sub (projected_rows r0 r1 r2 xs1 ys1) pts2 in
    let errors := np_sqrt (sum_axis0 (square diff)) in
    Returned (np_sum (where_lt errors (thresh * thresh)%sc), errors).
Proof.
  intros Hr0 Hr1 Hr2 Hy1. unfold count_homography_inliers.
  rewrite vstack_same by (simpl; by rewrite length_replicate).
  cbn [bind]. rewrite matmul_returns by (by repeat constructor).
  cbn [bind fmap list_fmap index lookup list_lookup take app ncols ones replicate].
  rewrite elementwise_2_1 by (by rewrite !length_row_times).
  reflexivity.
Qed.

Lemma length_projected_row (r r2 xs1 ys1 : vector F) :
  length (zip_with s_div (row_times r [xs1; ys1; replicate (length xs1) s_one])
                         (row_times r2 [xs1; ys1; replicate (length xs1) s_one])) =
  length xs1.
Proof. rewrite length_zip_with, !length_row_times. simpl. lia. Qed.

Lemma count_homography_inliers_mismatch (N M : nat) (H0 pts1 pts2 : matrix F)
    (thresh : F) :
  shape 3 3 H0 → shape 2 N pts1 → shape 2 M pts2 →
  N ≠ M → N ≠ 1 → M ≠ 1 →
  count_homography_inliers H0 pts1 pts2 thresh = Raised ValueError.
Proof.
  intros HH (xs1 & ys1 & -> & Hx1 & Hy1)%shape_2_inv (xs2 & ys2 & -> & Hx2 & Hy2)%shape_2_inv
         HNM HN HM.
  apply shape_3_3_inv in HH as (a & b & c & d & e & f & g & h & k & ->).
  rewrite count_homography_inliers_projected by (done || lia).
  unfold projected_rows, elementwise.
  rewrite broadcast_same by done.
  cbn [bind zip zip_with fmap list_fmap sequence fst snd].
  unfold elementwise_row at 1.
  rewrite broadcast_mismatch; [done|rewrite length_projected_row; lia..|lia].
Qed.

(** X2.  Arrays of different lengths N and M, neither of them 1, are
    rejected: the subtraction cannot broadcast and the call raises
    [ValueError]. *)
Theorem count_homography_inliers_length_mismatch (N M : nat) (H0 pts1 pts2 : matrix F)
    (thresh : F) :
  shape 3 3 H0 → shape 2 N pts1 → shape 2 M pts2 →
  N ≠ M → N ≠ 1 → M ≠ 1 →
  count_homography_inliers H0 pts1 pts2 thresh = Raised ValueError.
Proof. apply count_homography_inliers_mismatch. Qed.

(** A [pts2] holding a single point: the subtraction broadcasts it. *)
Lemma count_homography_inliers_broadcast_point (N : nat) (H0 pts1 : matrix F) (x2 y2 : F)
    (thresh : F) :
  shape 3 3 H0 → shape 2 N pts1 → N ≠ 1 →
  ∃ errs : vector F,
    length errs = N ∧
    count_homography_inliers H0 pts1 [[x2]; [y2]] thresh =
      Returned (count_below errs (thresh * thresh)%sc, errs) ∧
    (∀ i p, point pts1 i = Some p →
       ∃ e, reprojection_error H0 p (x2, y2) = Some e ∧ errs !! i = Some e).
Proof.
  intros HH (xs1 & ys1 & -> & Hx1 & Hy1)%shape_2_inv HN.
  apply shape_3_3_inv in HH as (a & b & c & d & e & f & g & h & k & ->).
  rewrite count_homography_inliers_projected by (done || lia).
  unfold projected_rows, elementwise.
  rewrite broadcast_same by done.
  cbn [bind zip zip_with fmap list_fmap sequence fst snd].
  unfold elementwise_row.
  rewrite !broadcast_one_r by (rewrite length_projected_row; lia).
  cbn [bind]. rewrite np_sum_where_lt.
  eexists. split; [|split; [reflexivity|]].
  - unfold np_sqrt, sum_axis0, square, map_cells. cbn [fmap list_fmap foldl].
    rewrite length_fmap, length_zip_with, !length_fmap, !length_projected_row. lia.
  - intros i [x1 y1] Hp. unfold point in Hp.
    destruct (xs1 !! i) as [x|] eqn:Hxi; [|done].
    destruct (ys1 !! i) as [y|] eqn:Hyi; [|done]. injection Hp as -> ->.
    assert (i < ncols [xs1; ys1; replicate (length xs1) s_one]) as Hi
      by (simpl; by eapply lookup_lt_Some).
    eexists. split; [reflexivity|].
    unfold np_sqrt, sum_axis0, square, map_cells. cbn [fmap list_fmap foldl].
    rewrite list_lookup_fmap, lookup_zip_with, !list_lookup_fmap, !lookup_zip_with.
    rewrite !lookup_row_times by done.
    by rewrite (col_of_points _ _ _ _ _ Hxi Hyi).
Qed.
End ScorerFacts.

(** X3.  A [pts2] holding a single point is not rejected.  In the
    arithmetic of the code and in any other: against a 2xN [pts1] with
    N ≠ 1 the call with the default threshold returns a vector of length
    N, and every returning call returns that vector.  In exact
    arithmetic: entry [i] of a returned error vector is the distance from
    [((a x + b y + c) / (g x + h y + k), (d x + e y + f) / (g x + h y + k))],
    the projection of [pts1[i] = (x, y)], to that one point, wherever
    [g x + h y + k] is not 0. *)
Theorem count_homography_inliers_single_target :
  (∀ (F : Type) (SF : Scalar F) (N : nat) (H0 pts1 : matrix F) (x2 y2 : F),
     shape 3 3 H0 → shape 2 N pts1 → N ≠ 1 →
     ∃ E : vector F,
       length E = N ∧
       (∃ n, count_homography_inliers H0 pts1 [[x2]; [y2]] s_one = Returned (n, E)) ∧
       (∀ thresh n errs,
          count_homography_inliers H0 pts1 [[x2]; [y2]] thresh = Returned (n, errs) →
          errs = E)) ∧
  (∀ (N : nat) (a b c d e f g h k : R) (pts1 : matrix R) (x2 y2 thresh : R) (n : Z)
     (errs : vector R),
     shape 2 N pts1 → N ≠ 1 →
     count_homography_inliers [[a; b; c]; [d; e; f]; [g; h; k]] pts1 [[x2]; [y2]] thresh =
       Returned (n, errs) →
     length errs = N ∧
     ∀ i x1 y1,
       point pts1 i = Some (x1, y1) →
       (g * x1 + h * y1 + k ≠ 0)%R →
       errs !! i =
         Some (sqrt (((a * x1 + b * y1 + c) / (g * x1 + h * y1 + k) - x2) *
                     ((a * x1 + b * y1 + c) / (g * x1 + h * y1 + k) - x2) +
                     ((d * x1 + e * y1 + f) / (g * x1 + h * y1 + k) - y2) *
                     ((d * x1 + e * y1 + f) / (g * x1 + h * y1 + k) - y2)))%R).
Proof.
  split.
  - intros F SF N H0 pts1 x2 y2 HH H1 HN.
    destruct (count_homography_inliers_broadcast_point N H0 pts1 x2 y2 s_one HH H1 HN)
      as (E & Hlen & Hc & _).
    exists E. split; [done|]. split; [by eexists|].
    intros thresh n errs Hr.
    destruct (count_homography_inliers_inv H0 pts1 [[x2]; [y2]] thresh)
      as [[errs' He]|[e' He]]; rewrite He in Hr, Hc; [|done].
    congruence.
  - intros N a b c d e f g h k pts1 x2 y2 thresh n errs H1 HN Hr.
    destruct (count_homography_inliers_broadcast_point N
                [[a; b; c]; [d; e; f]; [g; h; k]] pts1 x2 y2 thresh)
      as (E & Hlen & Hc & Hentries); [split; [reflexivity|repeat constructor]|done..|].
    rewrite Hc in Hr. injection Hr as _ <-. split; [done|].
    intros i x1 y1 Hp _. destruct (Hentries i (x1, y1) Hp) as (v & Hv & ->).
    unfold reprojection_error, mat_vec, homogeneous, dehomogenize, euclidean_distance in Hv.
    cbn [fmap list_fmap fst snd] in Hv. change (@s_one R real_scalar) with 1%R in Hv.
    rewrite !dot3_real in Hv. by injection Hv as <-.
Qed.

(** ** The scorer in float64: the sign of the threshold, a NaN threshold *)

Section ScorerFloat64.
Local Open Scope float_scope.

Lemma float_mul_opp_opp (t : float) : (- t) * (- t) = t * t.
Proof.
  apply Prim2SF_inj. rewrite !mul_spec, opp_spec.
  by destruct (Prim2SF t) as [[|]|[|]| |[|] ? ?].
Qed.

Lemma float_ltb_nan_r (x : float) : PrimFloat.ltb x nan = false.
Proof.
  rewrite ltb_spec. change (Prim2SF nan) with S754_nan.
  by destruct (Prim2SF x) as [[|]|[|]| |[|] ? ?].
Qed.

Lemma float_ltb_nan_l (x : float) : PrimFloat.ltb nan x = false.
Proof. rewrite ltb_spec. by change (Prim2SF nan) with S754_nan. Qed.

Lemma count_below_nan (errs : vector float) : count_below errs nan = 0%Z.
Proof.
  unfold count_below. induction errs as [|e errs IH]; [done|].
  rewrite filter_cons. change (s_ltb e nan) with (PrimFloat.ltb e nan).
  rewrite float_ltb_nan_r. by case_decide.
Qed.

(** X4.  Because the threshold is squared, its sign is ignored: a negative
    threshold gives the result of its absolute value, on every input. *)
Theorem count_homography_inliers_negative_threshold (H0 pts1 pts2 : matrix float)
    (thresh : float) :
  count_homography_inliers H0 pts1 pts2 (- thresh) =
  count_homography_inliers H0 pts1 pts2 thresh.
Proof.
  destruct (count_homography_inliers_inv H0 pts1 pts2 thresh) as [[errs He]|[e He]];
    rewrite !He; [|done].
  change (s_mul (- thresh) (- thresh)) with ((- thresh) * (- thresh)).
  by rewrite float_mul_opp_opp.
Qed.

(** X5.  With a NaN threshold no point is an inlier: whenever the call
    returns, the count is 0. *)
Theorem count_homography_inliers_nan_threshold (H0 pts1 pts2 : matrix float)
    (n : Z) (errs : vector float) :
  count_homography_inliers H0 pts1 pts2 nan = Returned (n, errs) → n = 0%Z.
Proof.
  destruct (count_homography_inliers_inv H0 pts1 pts2 nan) as [[errs' He]|[e He]];
    rewrite He; [|done].
  intros [= <- _]. change (s_mul nan nan) with nan. apply count_below_nan.
Qed.
End ScorerFloat64.

(** ** The solver: the shape of its result, arrays that are not 2xN *)

Section SolverFacts.
Context {F : Type} `{Scalar F}.
Variable svd : matrix F → outcome (matrix F * vector F * matrix F).

Lemma reshape33_shape (h : vector F) (H0 : matrix F) :
  reshape33 h = Returned H0 → shape 3 3 H0.
Proof.
  unfold reshape33.
  destruct h as [|? [|? [|? [|? [|? [|? [|? [|? [|? [|? ?]]]]]]]]]]; try done.
  intros [= <-]. split; [done|by repeat constructor].
Qed.

Lemma find_homography_shape (pts1 pts2 H0 : matrix F) :
  find_homography svd pts1 pts2 = Returned H0 → shape 3 3 H0.
Proof.
  unfold find_homography.
  destruct (for_each _ _ _) as [A|]; cbn [bind]; [|done].
  destruct (svd A) as [[[U Sigma] Vh]|]; cbn [bind]; [|done].
  destruct (last_row Vh) as [h|]; cbn [bind]; [|done].
  apply reshape33_shape.
Qed.

(** X6.  Whatever the input and whatever the SVD returns, a matrix returned
    by [find_homography] is 3x3. *)
Theorem find_homography_returns_3_3 (pts1 pts2 H0 : matrix F) :
  find_homography svd pts1 pts2 = Returned H0 → shape 3 3 H0.
Proof. apply find_homography_shape. Qed.

Lemma column_length (r N : nat) (M : matrix F) (i : nat) :
  shape r N M → i < N → ∃ col, column M i = Returned col ∧ length col = r.
Proof.
  intros [Hlen Hrows] Hi. unfold column.
  destruct (mapM (λ row : list F, row !! i) M) as [col|] eqn:Hm.
  - exists col. split; [done|]. apply length_mapM in Hm. lia.
  - apply mapM_None in Hm. apply Exists_exists in Hm as (row & Hin & Hnone).
    rewrite Forall_forall in Hrows. specialize (Hrows row Hin).
    apply lookup_ge_None in Hnone. lia.
Qed.

Lemma unpack2_wrong_length (v : vector F) :
  length v ≠ 2 → unpack2 v = Raised ValueError.
Proof. intros Hv. by destruct v as [|? [|? [|? ?]]]. Qed.

(** X7.  A [pts1] with a number of rows other than 2 (for instance points
    in homogeneous coordinates, 3xN) and at least one column is rejected
    at the first unpacking, with [ValueError]. *)
Theorem find_homography_wrong_rows (r N : nat) (pts1 pts2 : matrix F) :
  shape r N pts1 → 0 < r → r ≠ 2 → 0 < N →
  find_homography svd pts1 pts2 = Raised ValueError.
Proof.
  intros Hs Hr Hr2 HN. unfold find_homography.
  assert (ncols pts1 = N) as ->.
  { destruct Hs as [Hlen Hrows]. destruct pts1 as [|row rest]; [simpl in Hlen; lia|].
    by inversion Hrows. }
  destruct N as [|N]; [lia|]. cbn [seq for_each].
  unfold find_homography_step at 1.
  destruct (column_length r (S N) pts1 0 Hs) as (col & -> & Hcol); [lia|].
  cbn [bind]. rewrite unpack2_wrong_length by lia. done.
Qed.
End SolverFacts.

(** ** The RANSAC loop: its result, its trials, its failures *)

Section RansacFacts.
Context {F : Type} `{Scalar F}.
Variable svd : matrix F → outcome (matrix F * vector F * matrix F).
Variable rng : Type.
Variable random_interval : rng → nat → nat * rng.
Variables (pts1 pts2 : matrix F) (thresh : F).

#[local] Abbreviation trial_of' := (ransac_trial svd rng random_interval pts1 pts2 thresh).
#[local] Abbreviation body' := (ransac_body svd rng random_interval pts1 pts2 thresh).
#[local] Abbreviation loop' := (ransac_loop svd rng random_interval pts1 pts2 thresh).
#[local] Abbreviation state' := (@ransac_state F rng).

Hypothesis random_interval_bound : ∀ g m, (random_interval g m).1 ≤ m.

(** What a completed trial did. *)
Definition trial_sound (t : trial (F := F)) : Prop :=
  ∃ s1 s2,
    take_columns pts1 (idx t) = Returned s1 ∧
    take_columns pts2 (idx t) = Returned s2 ∧
    find_homography svd s1 s2 = Returned (candidate t) ∧
    count_homography_inliers (candidate t) pts1 pts2 thresh =
      Returned (local_ninliers t, local_errors t).

Lemma ransac_trial_sound (g g' : rng) (t : trial) :
  trial_of' g = Returned (t, g') →
  choice rng random_interval g (ncols pts1) 4 = Returned (idx t, g') ∧ trial_sound t.
Proof.
  unfold ransac_trial, trial_sound.
  destruct (choice rng random_interval g (ncols pts1) 4) as [[sample g1]|]; [|done].
  cbn [bind].
  destruct (take_columns pts1 sample) as [s1|] eqn:H1; [|done]. cbn [bind].
  destruct (take_columns pts2 sample) as [s2|] eqn:H2; [|done]. cbn [bind].
  destruct (find_homography svd s1 s2) as [H0|] eqn:Hf; [|done]. cbn [bind].
  destruct (count_homography_inliers H0 pts1 pts2 thresh) as [[n e]|] eqn:Hc; [|done].
  cbn [bind]. intros [= <- <-]. cbn. split; [done|]. by exists s1, s2.
Qed.

(** The shape of the loop variables: the best triple is that of the first
    trial that reached the highest count. *)
Definition best_is_first_maximum (st : state') : Prop :=
  (0 ≤ ninliers st)%Z ∧
  Forall (λ u, (local_ninliers u ≤ ninliers st)%Z) (trials st) ∧
  match Hbest st with
  | None => ninliers st = 0%Z ∧ errors st = None
  | Some H0 =>
      ∃ newer t older,
        trials st = newer ++ t :: older ∧
        H0 = candidate t ∧ ninliers st = local_ninliers t ∧
        errors st = Some (local_errors t) ∧ (0 < local_ninliers t)%Z ∧
        Forall (λ u, (local_ninliers u < local_ninliers t)%Z) older
  end.

Lemma ransac_update_first_maximum (st : state') (t : trial) (g' : rng) :
  best_is_first_maximum st → best_is_first_maximum (ransac_update st t g').
Proof.
  intros (Hpos & Hall & Hkept). unfold ransac_update, best_is_first_maximum.
  destruct (local_ninliers t >? ninliers st)%Z eqn:Hgt; cbn.
  - split; [lia|]. split.
    + constructor; [lia|]. eapply Forall_impl; [exact Hall|]. cbn. intros; lia.
    + exists [], t, (trials st). repeat split; try done; try lia.
      eapply Forall_impl; [exact Hall|]. cbn. intros; lia.
  - split; [done|]. split; [constructor; [lia|done]|].
    destruct (Hbest st) as [H0|]; [|done].
    destruct Hkept as (newer & t0 & older & -> & ? & ? & ? & ? & ?).
    by exists (t :: newer), t0, older.
Qed.

Lemma ransac_loop_invariant (P : state' → Prop) (k : nat) (st st' : state') :
  (∀ s t g', trial_of' (gen s) = Returned (t, g') → P s → P (ransac_update s t g')) →
  P st → loop' k st = Returned st' → P st'.
Proof.
  intros Hstep. revert st. induction k as [|k IH]; intros st HP; cbn [ransac_loop].
  - by intros [= <-].
  - unfold ransac_body at 1.
    destruct (trial_of' (gen st)) as [[t g']|] eqn:Ht; [|done]. cbn [bind].
    apply IH. by eapply Hstep.
Qed.

Lemma ransac_loop_first_maximum (k : nat) (g : rng) (st : state') :
  loop' k (ransac_init g) = Returned st → best_is_first_maximum st.
Proof.
  apply (ransac_loop_invariant best_is_first_maximum).
  - intros s t g' _. apply ransac_update_first_maximum.
  - unfold best_is_first_maximum. cbn. split; [lia|]. by split.
Qed.

Lemma ransac_loop_sound (k : nat) (g : rng) (st : state') :
  loop' k (ransac_init g) = Returned st → Forall trial_sound (trials st).
Proof.
  apply (ransac_loop_invariant (λ s, Forall trial_sound (trials s))).
  - intros s t g' [_ Ht]%ransac_trial_sound Hs.
    unfold ransac_update. destruct (_ >? _)%Z; cbn; by constructor.
  - by constructor.
Qed.

Lemma ransac_call_inv (niter : Z) (g g' : rng) (Hb : option (matrix F)) (n : Z)
    (e : option (vector F)) :
  find_homography_RANSAC svd rng random_interval pts1 pts2 niter thresh g =
    Returned (Hb, n, e, g') →
  ∃ st, loop' (Z.to_nat niter) (ransac_init g) = Returned st ∧
        Hb = Hbest st ∧ n = ninliers st ∧ e = errors st ∧ g' = gen st.
Proof.
  unfold find_homography_RANSAC.
  destruct (loop' (Z.to_nat niter) (ransac_init g)) as [st|]; [|done].
  cbn [bind]. intros [= <- <- <- <-]. by exists st.
Qed.

(** X8.  With [niter <= 0] the loop body never runs: the call returns no
    homography, count 0 and no errors, and leaves the generator as it
    was, whatever the arrays. *)
Theorem ransac_no_iterations (niter : Z) (g : rng) :
  (niter ≤ 0)%Z →
  find_homography_RANSAC svd rng random_interval pts1 pts2 niter thresh g =
    Returned (None, 0%Z, None, g).
Proof.
  intros Hn. unfold find_homography_RANSAC.
  by replace (Z.to_nat niter) with 0 by lia.
Qed.

(** X9.  With fewer than 4 correspondences and at least one iteration the
    call raises [ValueError] (from the sampler), whatever [pts2] holds. *)
Theorem ransac_fewer_than_4_points (niter : Z) (g : rng) :
  ncols pts1 < 4 → (0 < niter)%Z →
  find_homography_RANSAC svd rng random_interval pts1 pts2 niter thresh g =
    Raised ValueError.
Proof.
  intros HN Hn. unfold find_homography_RANSAC.
  destruct (Z.to_nat niter) as [|k] eqn:Hk; [lia|].
  cbn [ransac_loop]. unfold ransac_body, ransac_trial.
  unfold choice. by rewrite decide_True.
Qed.

Lemma ransac_none_has_no_errors (niter : Z) (g g' : rng) (n : Z)
    (e : option (vector F)) :
  find_homography_RANSAC svd rng random_interval pts1 pts2 niter thresh g =
    Returned (None, n, e, g') →
  n = 0%Z ∧ e = None.
Proof.
  intros (st & Hl & HH & -> & -> & _)%ransac_call_inv.
  apply ransac_loop_first_maximum in Hl as (_ & _ & Hkept).
  by rewrite <- HH in Hkept.
Qed.

(** X10.  A returned result is one of two kinds: no homography, count 0
    and no errors; or a homography, its errors, and a count of at least 1.
    So the count is 0 exactly when there is no homography. *)
Theorem ransac_result_none_or_positive (niter : Z) (g g' : rng)
    (Hb : option (matrix F)) (n : Z) (e : option (vector F)) :
  find_homography_RANSAC svd rng random_interval pts1 pts2 niter thresh g =
    Returned (Hb, n, e, g') →
  (Hb = None ∧ n = 0%Z ∧ e = None) ∨
  (∃ H0 errs, Hb = Some H0 ∧ e = Some errs ∧ (1 ≤ n)%Z).
Proof.
  intros (st & Hl & -> & -> & -> & ->)%ransac_call_inv.
  apply ransac_loop_first_maximum in Hl as (_ & _ & Hkept).
  destruct (Hbest st) as [H0|].
  - destruct Hkept as (newer & t & older & _ & _ & -> & -> & ? & _).
    right. exists H0, (local_errors t). split; [done|]. split; [done|lia].
  - left. by destruct Hkept.
Qed.

(** X11.  The loop keeps the first trial that reached the highest count:
    the best count is the largest count of any trial (0 if none is
    positive), and when a homography is kept it is the candidate of a
    trial with that count such that every earlier trial counted strictly
    less. *)
Theorem ransac_keeps_first_maximum (niter : Z) (g : rng) (st : state') :
  ransac_loop svd rng random_interval pts1 pts2 thresh (Z.to_nat niter) (ransac_init g) =
    Returned st →
  ninliers st = foldr Z.max 0%Z (local_ninliers <$> trials st) ∧
  (∀ H0, Hbest st = Some H0 →
     ∃ newer t older,
       trials st = newer ++ t :: older ∧
       H0 = candidate t ∧ ninliers st = local_ninliers t ∧
       errors st = Some (local_errors t) ∧
       Forall (λ u, (local_ninliers u < local_ninliers t)%Z) older).
Proof.
  intros Hl. apply ransac_loop_first_maximum in Hl as (Hpos & Hall & Hkept).
  assert (∀ l : list (@trial F), Forall (λ u, (local_ninliers u ≤ ninliers st)%Z) l →
            (foldr Z.max 0 (local_ninliers <$> l) ≤ ninliers st)%Z) as Hmax.
  { induction l as [|u l IH]; cbn; [lia|]. intros Hl. inversion Hl; subst.
    specialize (IH ltac:(done)). lia. }
  split.
  - destruct (Hbest st) as [H0|].
    + destruct Hkept as (newer & t & older & Htr & _ & Hn & _ & _ & _).
      apply Z.le_antisymm; [|by apply Hmax].
      rewrite Htr, fmap_app, foldr_app, fmap_cons. cbn [foldr].
      assert (∀ (l : list Z) (z : Z), (z ≤ foldr Z.max z l)%Z) as Hge.
      { induction l as [|x l IH]; intros z; cbn; [lia|]. specialize (IH z). lia. }
      etransitivity; [|apply Hge]. lia.
    + destruct Hkept as [Hn _]. apply Z.le_antisymm; [|by apply Hmax].
      rewrite Hn. clear. induction (trials st) as [|u l IH]; cbn; lia.
  - intros H0 HH. rewrite HH in Hkept.
    destruct Hkept as (newer & t & older & ? & ? & ? & ? & ? & ?).
    by exists newer, t, older.
Qed.

Lemma take_columns_points (N : nat) (pts : matrix F) (sample : list nat) (s : matrix F) :
  shape 2 N pts → take_columns pts sample = Returned s →
  shape 2 (length sample) s ∧ Forall (λ j, j < N) sample ∧
  ∀ k j, sample !! k = Some j → point s k = point pts j.
Proof.
  intros (xs & ys & -> & Hx & Hy)%shape_2_inv. unfold take_columns. cbn.
  destruct (mapM (λ j : nat, xs !! j) sample) as [xs'|] eqn:Hxs; [|done].
  destruct (mapM (λ j : nat, ys !! j) sample) as [ys'|] eqn:Hys; [|done].
  cbn. intros [= <-].
  apply mapM_Some in Hxs, Hys.
  pose proof (Forall2_length _ _ _ Hxs) as Hlx.
  pose proof (Forall2_length _ _ _ Hys) as Hly.
  split; [|split].
  - split; [done|]. by repeat constructor.
  - apply Forall_forall. intros j Hj.
    apply list_elem_of_lookup in Hj as [k Hk].
    destruct (Forall2_lookup_l _ _ _ _ _ Hxs Hk) as (x & _ & Hxj).
    apply lookup_lt_Some in Hxj. lia.
  - intros k j Hk.
    destruct (Forall2_lookup_l _ _ _ _ _ Hxs Hk) as (x & Hx' & Hxj).
    destruct (Forall2_lookup_l _ _ _ _ _ Hys Hk) as (y & Hy' & Hyj).
    unfold point. by rewrite Hx', Hy', Hxj, Hyj.
Qed.

Lemma ncols_shape (r N : nat) (M : matrix F) : shape r N M → 0 < r → ncols M = N.
Proof.
  intros [Hlen Hrows] Hr. destruct M as [|row rest]; [simpl in Hlen; lia|].
  by inversion Hrows.
Qed.

Lemma ransac_kept_sound (N : nat) (niter : Z) (g g' : rng) (H0 : matrix F) (n : Z)
    (e : option (vector F)) :
  shape 2 N pts1 → shape 2 N pts2 →
  find_homography_RANSAC svd rng random_interval pts1 pts2 niter thresh g =
    Returned (Some H0, n, e, g') →
  ∃ errs, e = Some errs ∧
    count_homography_inliers H0 pts1 pts2 thresh = Returned (n, errs) ∧
    shape 3 3 H0 ∧ length errs = N ∧ (1 ≤ n ≤ Z.of_nat N)%Z.
Proof.
  intros Hs1 Hs2 (st & Hl & HH & -> & -> & _)%ransac_call_inv.
  pose proof (ransac_loop_sound _ _ _ Hl) as Hsound.
  apply ransac_loop_first_maximum in Hl as (_ & _ & Hkept).
  rewrite <- HH in Hkept.
  destruct Hkept as (newer & t & older & Htr & -> & -> & -> & Hpos & _).
  rewrite Htr, Forall_app, Forall_cons in Hsound.
  destruct Hsound as (_ & (s1 & s2 & _ & _ & Hf & Hc) & _).
  apply find_homography_shape in Hf.
  exists (local_errors t). split; [done|]. split; [done|]. split; [done|]. split.
  - exact (count_homography_inliers_length N _ _ _ _ _ _ Hf Hs1 Hs2 Hc).
  - pose proof (count_homography_inliers_range N _ _ _ _ _ _ Hf Hs1 Hs2 Hc). lia.
Qed.

(** X12.  For 2xN arrays, a returned homography is 3x3, the returned
    errors have length N, and the returned count lies between 1 and N. *)
Theorem ransac_result_shapes (N : nat) (niter : Z) (g g' : rng) (H0 : matrix F) (n : Z)
    (errs : vector F) :
  shape 2 N pts1 → shape 2 N pts2 →
  find_homography_RANSAC svd rng random_interval pts1 pts2 niter thresh g =
    Returned (Some H0, n, Some errs, g') →
  shape 3 3 H0 ∧ length errs = N ∧ (1 ≤ n ≤ Z.of_nat N)%Z.
Proof.
  intros Hs1 Hs2 Hr.
  destruct (ransac_kept_sound N _ _ _ _ _ _ Hs1 Hs2 Hr) as (errs' & [= <-] & _ & ?).
  done.
Qed.


(** X13.  The arrays are not checked up front, yet a call with arrays of
    different lengths and at least one iteration never returns: the first
    trial raises (in the sampler, in the indexing of [pts2] or in the
    scorer). *)
Theorem ransac_length_mismatch (N M : nat) (niter : Z) (g : rng) :
  shape 2 N pts1 → shape 2 M pts2 → N ≠ M → (0 < niter)%Z →
  ∃ e, find_homography_RANSAC svd rng random_interval pts1 pts2 niter thresh g =
         Raised e.
Proof using random_interval_bound.
  intros Hs1 Hs2 HNM Hn. unfold find_homography_RANSAC.
  destruct (Z.to_nat niter) as [|k] eqn:Hk; [lia|].
  cbn [ransac_loop]. unfold ransac_body at 1.
  destruct (trial_of' (gen (ransac_init g))) as [[t g']|e] eqn:Ht; [|by exists e].
  exfalso.
  apply ransac_trial_sound in Ht as (Hch & s1 & s2 & _ & H2 & Hf & Hc).
  rewrite (ncols_shape 2 N pts1 Hs1) in Hch by lia.
  assert (¬ N < 4) as HN4.
  { intros Hlt. by rewrite choice_raises in Hch. }
  apply (choice_sample rng random_interval random_interval_bound) in Hch
    as (Hlen & Hnd & _).
  apply (take_columns_points M) in H2 as (_ & HltM & _); [|done].
  apply find_homography_shape in Hf.
  destruct (decide (M = 1)) as [->|HM1].
  - destruct (idx t) as [|i0 [|i1 l]]; [done..|].
    inversion HltM as [|? ? Hi0 Hrest]; subst. inversion Hrest as [|? ? Hi1 _]; subst.
    assert (i0 = i1) as -> by lia.
    inversion Hnd as [|? ? Hnotin _]; subst. apply Hnotin. by left.
  - rewrite (count_homography_inliers_mismatch N M) in Hc; (done || lia).
Qed.

Lemma ransac_loop_samples (k : nat) (g : rng) (st : state') :
  loop' k (ransac_init g) = Returned st →
  Forall (λ t, trial_sound t ∧ length (idx t) = 4) (trials st).
Proof using random_interval_bound.
  apply (ransac_loop_invariant
           (λ s, Forall (λ t, trial_sound t ∧ length (idx t) = 4) (trials s))).
  - intros s t g' [Hch Ht]%ransac_trial_sound Hs.
    apply (choice_sample rng random_interval random_interval_bound) in Hch as (Hlen & _).
    unfold ransac_update. destruct (_ >? _)%Z; cbn; by constructor.
  - by constructor.
Qed.

(** X14.  Each trial's candidate is the solver's answer for 2x4 arrays
    taken with one index array from both inputs: point [k] of the first
    sample is point [idx[k]] of [pts1] and point [k] of the second sample
    is point [idx[k]] of [pts2], so sampled correspondences stay paired. *)
Theorem ransac_samples_aligned (N : nat) (niter : Z) (g : rng) (st : state') :
  shape 2 N pts1 → shape 2 N pts2 →
  ransac_loop svd rng random_interval pts1 pts2 thresh (Z.to_nat niter) (ransac_init g) =
    Returned st →
  Forall (λ t, ∃ s1 s2 : matrix F,
            shape 2 4 s1 ∧ shape 2 4 s2 ∧
            (∀ k j, idx t !! k = Some j →
                    point s1 k = point pts1 j ∧ point s2 k = point pts2 j) ∧
            find_homography svd s1 s2 = Returned (candidate t)) (trials st).
Proof using random_interval_bound.
  intros Hs1 Hs2 Hl%ransac_loop_samples.
  eapply Forall_impl; [exact Hl|]. cbn.
  intros t [(s1 & s2 & H1 & H2 & Hf & _) Hlen].
  apply (take_columns_points N) in H1 as (Hsh1 & _ & Hp1); [|done].
  apply (take_columns_points N) in H2 as (Hsh2 & _ & Hp2); [|done].
  rewrite Hlen in Hsh1, Hsh2.
  exists s1, s2. split; [exact Hsh1|]. split; [exact Hsh2|]. split; [|exact Hf].
  intros k j Hk. split; [by apply Hp1|by apply Hp2].
Qed.
End RansacFacts.

(** ** The refinement step of the example drivers

    [synthetic_example(RANSAC = True)] and [real_example] both run
    [[
      H1, ninliers, errors = find_homography_RANSAC(pts1, pts2, niter=10000)
      H2 = find_homography(pts1[:, errors<1], pts2[:, errors<1])
    ]]
    between obtaining the points and printing.  These two lines are
    modelled here, with the iteration count as an argument. *)

(** The drivers can fail in one more way than the functions they call:
    comparing [None] with a number raises [TypeError]. *)
Inductive run (A : Type) : Type :=
  | Completed (a : A)
  | Propagated (e : exn)
  | TypeErrorRaised.
Arguments Completed {A} a.
Arguments Propagated {A} e.
Arguments TypeErrorRaised {A}.

Definition run_bind {A B : Type} (m : run A) (k : A → run B) : run B :=
  match m with
  | Completed a => k a
  | Propagated e => Propagated e
  | TypeErrorRaised => TypeErrorRaised
  end.

Definition propagate {A : Type} (m : outcome A) : run A :=
  match m with
  | Returned a => Completed a
  | Raised e => Propagated e
  end.

Section Refinement.
Context {F : Type} `{Scalar F}.
Variable svd : matrix F → outcome (matrix F * vector F * matrix F).
Variable rng : Type.
Variable random_interval : rng → nat → nat * rng.

(** [errors < t], for [errors] an array or [None] *)
Definition errors_below (errors : option (vector F)) (t : F) : run (list bool) :=
  match errors with
  | Some e => Completed ((λ x, s_ltb x t) <$> e)
  | None => TypeErrorRaised
  end.

(** The entries of a row at the positions where the mask is [True]. *)
Definition mask_row (row : vector F) (mask : list bool) : vector F :=
  (filter (λ p : F * bool, p.2 = true) (zip row mask)).*1.

(** [M[:, mask]] for a boolean array [mask] *)
Definition mask_columns (M : matrix F) (mask : list bool) : outcome (matrix F) :=
  if decide (length mask = ncols M)
  then Returned ((λ row, mask_row row mask) <$> M)
  else Raised IndexError.

Definition ransac_then_refine (pts1 pts2 : matrix F) (niter : Z) (g : rng)
  : run (option (matrix F) * Z * matrix F * rng) :=
  run_bind (propagate (find_homography_RANSAC svd rng random_interval pts1 pts2 niter s_one g))
    (λ '(H1, ninliers, errors, g'),
  run_bind (errors_below errors s_one) (λ mask1,
  run_bind (propagate (mask_columns pts1 mask1)) (λ inliers1,
  run_bind (errors_below errors s_one) (λ mask2,
  run_bind (propagate (mask_columns pts2 mask2)) (λ inliers2,
  run_bind (propagate (find_homography svd inliers1 inliers2)) (λ H2,
  Completed (H1, ninliers, H2, g'))))))).

(** X15.  When RANSAC returns without a homography, the refinement line
    raises [TypeError]: [errors] is [None] and is compared with 1. *)
Theorem refine_without_model (pts1 pts2 : matrix F) (niter : Z) (g g' : rng) (n : Z)
    (e : option (vector F)) :
  find_homography_RANSAC svd rng random_interval pts1 pts2 niter s_one g =
    Returned (None, n, e, g') →
  ransac_then_refine pts1 pts2 niter g = TypeErrorRaised.
Proof.
  intros Hr. unfold ransac_then_refine. rewrite Hr. cbn [propagate run_bind].
  by destruct (ransac_none_has_no_errors _ _ _ _ _ _ _ _ _ _ _ Hr) as [_ ->].
Qed.

Lemma length_mask_row (row : vector F) (mask : list bool) :
  length row = length mask →
  length (mask_row row mask) = length (filter (λ b : bool, b = true) mask).
Proof.
  unfold mask_row. rewrite length_fmap.
  revert mask. induction row as [|x row IH]; intros [|b mask] Hl; try done.
  change (zip (x :: row) (b :: mask)) with ((x, b) :: zip row mask).
  rewrite !filter_cons. cbn [snd].
  injection Hl as Hl. specialize (IH mask Hl).
  destruct b; repeat case_decide; try done; simpl; by rewrite IH.
Qed.

Lemma length_filter_mask (errs : vector F) (t : F) :
  length (filter (λ b : bool, b = true) ((λ x, s_ltb x t) <$> errs)) =
  length (filter (λ e, s_ltb e t = true) errs).
Proof.
  induction errs as [|e errs IH]; [done|].
  rewrite fmap_cons, !filter_cons. repeat case_decide; try done; simpl; by rewrite IH.
Qed.

Lemma mask_columns_shape (N : nat) (M : matrix F) (errs : vector F) (t : F) :
  shape 2 N M → length errs = N →
  ∃ s, mask_columns M ((λ x, s_ltb x t) <$> errs) = Returned s ∧
       shape 2 (Z.to_nat (count_below errs t)) s.
Proof.
  intros (xs & ys & -> & Hx & Hy)%shape_2_inv He.
  unfold mask_columns. rewrite decide_True by (cbn; rewrite length_fmap; lia).
  eexists. split; [reflexivity|].
  unfold count_below. rewrite Nat2Z.id. split; [done|].
  repeat constructor;
    rewrite length_mask_row, length_filter_mask; rewrite ?length_fmap; lia.
Qed.

(** X16.  With the default threshold 1.0 (whose square is 1), the mask
    [errors < 1] selects as many correspondences as RANSAC counted: for
    2xN arrays and a returned homography with count [n], the refinement
    calls the solver on two 2xn arrays, without checking that [n >= 4]. *)
Theorem refine_uses_counted_inliers (N : nat) (pts1 pts2 : matrix F) (niter : Z)
    (g g' : rng) (H1 : matrix F) (n : Z) (e : option (vector F)) :
  (s_one * s_one)%sc = s_one →
  shape 2 N pts1 → shape 2 N pts2 →
  find_homography_RANSAC svd rng random_interval pts1 pts2 niter s_one g =
    Returned (Some H1, n, e, g') →
  ∃ inliers1 inliers2 : matrix F,
    shape 2 (Z.to_nat n) inliers1 ∧ shape 2 (Z.to_nat n) inliers2 ∧
    ransac_then_refine pts1 pts2 niter g =
      run_bind (propagate (find_homography svd inliers1 inliers2))
               (λ H2, Completed (Some H1, n, H2, g')).
Proof.
  intros Hone Hs1 Hs2 Hr.
  destruct (ransac_kept_sound _ _ _ _ _ _ N _ _ _ _ _ _ Hs1 Hs2 Hr)
    as (errs & -> & Hc & _ & Hlen & _).
  destruct (count_homography_inliers_inv H1 pts1 pts2 s_one) as [[errs' He]|[e He]];
    rewrite He in Hc; [|done].
  injection Hc as <- <-.
  destruct (mask_columns_shape N pts1 errs' s_one Hs1 Hlen) as (i1 & Hm1 & Hsh1).
  destruct (mask_columns_shape N pts2 errs' s_one Hs2 Hlen) as (i2 & Hm2 & Hsh2).
  exists i1, i2. rewrite Hone. split; [done|]. split; [done|].
  unfold ransac_then_refine. rewrite Hr. cbn [propagate run_bind errors_below].
  rewrite Hm1, Hm2. cbn [propagate run_bind]. by rewrite Hone.
Qed.
End Refinement.

(** ** The error metric: when it raises *)

Section MetricFacts.
Context {F : Type} `{Scalar F}.

(** X17.  On 3x3 arrays the metric raises exactly when [focal == 0]
    ([ZeroDivisionError] from [1/focal]); for any other [focal] it returns
    a number, whatever the entries of the arrays. *)
Theorem homography_error_raises_iff_zero_focal (H1 H2 : matrix F) (focal : F) :
  shape 3 3 H1 → shape 3 3 H2 →
  (s_eqb focal s_zero = true →
     homography_error H1 H2 focal = Raised ZeroDivisionError) ∧
  (s_eqb focal s_zero = false →
     ∃ v, homography_error H1 H2 focal = Returned v).
Proof.
  intros (a & b & c & d & e & f & g & h & k & ->)%shape_3_3_inv
         (a' & b' & c' & d' & e' & f' & g' & h' & k' & ->)%shape_3_3_inv.
  rewrite homography_error_3_3. unfold py_div.
  split; intros ->; cbn [bind]; [done|].
  rewrite matmul_returns by (by repeat constructor). cbn [bind].
  rewrite matmul_returns by (by repeat constructor). cbn [bind].
  by eexists.
Qed.
End MetricFacts.

(** ** The error metric in exact arithmetic *)

Section MetricExact.
Local Open Scope R_scope.

Lemma real_eqb_nonzero (x : R) : x ≠ 0 → s_eqb x s_zero = false.
Proof. intros Hx. cbn. by destruct (Req_dec_T x 0). Qed.

(** The sum under the square root: the entries of the normalised
    difference, the translation column divided by [focal], the
    perspective row multiplied by [focal]. *)
Definition weighted_squares (focal d00 d01 d02 d10 d11 d12 d20 d21 d22 : R) : R :=
  d00 * d00 + d01 * d01 + (d02 / focal) * (d02 / focal) +
  d10 * d10 + d11 * d11 + (d12 / focal) * (d12 / focal) +
  (d20 * focal) * (d20 * focal) + (d21 * focal) * (d21 * focal) + d22 * d22.

Lemma homography_error_real (a b c d e f g h k a' b' c' d' e' f' g' h' k' focal : R) :
  focal ≠ 0 →
  homography_error [[a; b; c]; [d; e; f]; [g; h; k]]
                   [[a'; b'; c']; [d'; e'; f']; [g'; h'; k']] focal =
  Returned (sqrt (weighted_squares focal
                    (a / k - a' / k') (b / k - b' / k') (c / k - c' / k')
                    (d / k - d' / k') (e / k - e' / k') (f / k - f' / k')
                    (g / k - g' / k') (h / k - h' / k') (k / k - k' / k'))).
Proof.
  intros Hf. rewrite homography_error_3_3. unfold py_div.
  rewrite real_eqb_nonzero by done. cbn [bind].
  rewrite matmul_returns by (by repeat constructor). cbn [bind].
  rewrite matmul_returns by (by repeat constructor). cbn [bind].
  f_equal. unfold norm, weighted_squares. cbn. f_equal.
  generalize (a / k - a' / k') (b / k - b' / k') (c / k - c' / k')
             (d / k - d' / k') (e / k - e' / k') (f / k - f' / k')
             (g / k - g' / k') (h / k - h' / k') (k / k - k' / k').
  intros. by field.
Qed.

Lemma weighted_squares_nonneg (focal d00 d01 d02 d10 d11 d12 d20 d21 d22 : R) :
  0 <= weighted_squares focal d00 d01 d02 d10 d11 d12 d20 d21 d22.
Proof. unfold weighted_squares. nra. Qed.

Lemma weighted_squares_zero (focal d00 d01 d02 d10 d11 d12 d20 d21 d22 : R) :
  focal ≠ 0 →
  weighted_squares focal d00 d01 d02 d10 d11 d12 d20 d21 d22 = 0 →
  d00 = 0 ∧ d01 = 0 ∧ d02 = 0 ∧ d10 = 0 ∧ d11 = 0 ∧ d12 = 0 ∧
  d20 = 0 ∧ d21 = 0 ∧ d22 = 0.
Proof.
  intros Hf Hs. unfold weighted_squares in Hs.
  assert (d02 / focal = 0 ∧ d12 / focal = 0 ∧ d20 * focal = 0 ∧ d21 * focal = 0 ∧
          d00 = 0 ∧ d01 = 0 ∧ d10 = 0 ∧ d11 = 0 ∧ d22 = 0)
    as (H02 & H12 & H20 & H21 & -> & -> & -> & -> & ->)
    by (repeat split; nra).
  apply Rmult_integral in H20 as [->|?]; [|done].
  apply Rmult_integral in H21 as [->|?]; [|done].
  unfold Rdiv in H02, H12.
  apply Rmult_integral in H02 as [->|Hi]; [|by apply Rinv_neq_0_compat in Hi].
  apply Rmult_integral in H12 as [->|Hi]; [|by apply Rinv_neq_0_compat in Hi].
  done.
Qed.

(** X18.  In exact arithmetic and for [focal ≠ 0], the metric is the
    square root of the sum of the squared entries of
    [H1/H1[2,2] - H2/H2[2,2]], where the entries of the last column
    ([0,2] and [1,2]) are first divided by [focal] and those of the last
    row ([2,0] and [2,1]) multiplied by [focal]. *)
Theorem homography_error_exact_formula
    (a b c d e f g h k a' b' c' d' e' f' g' h' k' focal : R) :
  focal ≠ 0 →
  homography_error [[a; b; c]; [d; e; f]; [g; h; k]]
                   [[a'; b'; c']; [d'; e'; f']; [g'; h'; k']] focal =
  Returned (sqrt (
    (a / k - a' / k') * (a / k - a' / k') + (b / k - b' / k') * (b / k - b' / k') +
    ((c / k - c' / k') / focal) * ((c / k - c' / k') / focal) +
    (d / k - d' / k') * (d / k - d' / k') + (e / k - e' / k') * (e / k - e' / k') +
    ((f / k - f' / k') / focal) * ((f / k - f' / k') / focal) +
    ((g / k - g' / k') * focal) * ((g / k - g' / k') * focal) +
    ((h / k - h' / k') * focal) * ((h / k - h' / k') * focal) +
    (k / k - k' / k') * (k / k - k' / k'))).
Proof. apply homography_error_real. Qed.

(** X19.  In exact arithmetic the metric is symmetric in its two
    matrices, for every focal length (both calls raise when it is 0). *)
Theorem homography_error_symmetric (H1 H2 : matrix R) (focal : R) :
  shape 3 3 H1 → shape 3 3 H2 →
  homography_error H1 H2 focal = homography_error H2 H1 focal.
Proof.
  intros (a & b & c & d & e & f & g & h & k & ->)%shape_3_3_inv
         (a' & b' & c' & d' & e' & f' & g' & h' & k' & ->)%shape_3_3_inv.
  destruct (Req_dec_T focal 0) as [->|Hf].
  - rewrite !homography_error_3_3. unfold py_div. cbn.
    by destruct (Req_dec_T 0 0).
  - rewrite !homography_error_real by done.
    apply (f_equal (λ x, Returned (sqrt x))).
    unfold weighted_squares, Rdiv. ring.
Qed.

(** X20.  In exact arithmetic the metric does not see the scale of either
    matrix: for [H1[2,2] ≠ 0], [H2[2,2] ≠ 0] and nonzero [c1], [c2],
    [homography_error(c1*H1, c2*H2, f) = homography_error(H1, H2, f)]. *)
Theorem homography_error_scale_blind (H1 H2 : matrix R) (c1 c2 k1 k2 focal : R) :
  shape 3 3 H1 → shape 3 3 H2 →
  entry H1 2 2 = Returned k1 → entry H2 2 2 = Returned k2 →
  k1 ≠ 0 → k2 ≠ 0 → c1 ≠ 0 → c2 ≠ 0 →
  homography_error (scale c1 H1) (scale c2 H2) focal = homography_error H1 H2 focal.
Proof.
  intros (a & b & c & d & e & f & g & h & k & ->)%shape_3_3_inv
         (a' & b' & c' & d' & e' & f' & g' & h' & k' & ->)%shape_3_3_inv
         [= ->] [= ->] Hk1 Hk2 Hc1 Hc2.
  unfold scale, map_cells. cbn [fmap list_fmap].
  rewrite !homography_error_3_3. cbn [s_mul s_div s_sub real_scalar].
  by rewrite !scale_cancels.
Qed.

(** X21.  In exact arithmetic, for [H1[2,2] ≠ 0], [H2[2,2] ≠ 0] and
    [focal ≠ 0], the metric is 0 exactly when the two matrices have the
    same normalisation, that is when [H1/H1[2,2]] and [H2/H2[2,2]] are
    the same array. *)
Theorem homography_error_zero_iff (H1 H2 : matrix R) (k1 k2 focal : R) :
  shape 3 3 H1 → shape 3 3 H2 →
  entry H1 2 2 = Returned k1 → entry H2 2 2 = Returned k2 →
  k1 ≠ 0 → k2 ≠ 0 → focal ≠ 0 →
  homography_error H1 H2 focal = Returned 0 ↔ div_scalar H1 k1 = div_scalar H2 k2.
Proof.
  intros (a & b & c & d & e & f & g & h & k & ->)%shape_3_3_inv
         (a' & b' & c' & d' & e' & f' & g' & h' & k' & ->)%shape_3_3_inv
         [= ->] [= ->] _ _ Hf.
  rewrite homography_error_real by done.
  unfold div_scalar, map_cells. cbn [fmap list_fmap s_div real_scalar].
  split.
  - intros [= Hs]. apply sqrt_eq_0 in Hs; [|apply weighted_squares_nonneg].
    apply weighted_squares_zero in Hs; [|done].
    destruct Hs as (? & ? & ? & ? & ? & ? & ? & ? & ?).
    repeat match goal with
           | Hd : _ - _ = 0 |- _ => apply Rminus_diag_uniq in Hd
           end.
    congruence.
  - intros [= -> -> -> -> -> -> -> -> ->].
    f_equal. rewrite <- sqrt_0. f_equal. unfold weighted_squares.
    unfold Rminus. rewrite !Rplus_opp_r. unfold Rdiv. ring.
Qed.
End MetricExact.

(** ** The further properties at concrete inputs *)

Section MoreWitnesses.
Local Open Scope float_scope.

(** Five target points, for four source points. *)
Definition origin5 : matrix float := [[0; 0; 0; 0; 0]; [0; 0; 0; 0; 0]].

Definition e9_matrix : matrix float := [[0; 0; 0]; [0; 0; 0]; [0; 0; 1]].

Lemma count_homography_inliers_bounds_witness :
  ∃ n errs, count_homography_inliers I3 [[0]; [0]] [[3]; [0]] 2 = Returned (n, errs) ∧
            (0 ≤ n ≤ Z.of_nat 1)%Z.
Proof.
  eexists _, _. split; [vm_compute; reflexivity|].
  eapply (count_homography_inliers_bounds 1 I3 [[0]; [0]] [[3]; [0]] 2);
    [shape_of_literal.. | vm_compute; reflexivity].
Defined.

Lemma count_homography_inliers_length_mismatch_witness :
  count_homography_inliers I3 corners origin5 1 = Raised ValueError.
Proof.
  apply (count_homography_inliers_length_mismatch 4 5 I3 corners origin5 1);
    [shape_of_literal.. | lia | lia | lia].
Defined.

Lemma count_homography_inliers_single_target_witness :
  ∃ E : vector float,
    length E = 4%nat ∧
    (∃ n, count_homography_inliers I3 corners [[0]; [0]] 1 = Returned (n, E)) ∧
    (∀ thresh n errs,
       count_homography_inliers I3 corners [[0]; [0]] thresh = Returned (n, errs) →
       errs = E).
Proof.
  apply (proj1 count_homography_inliers_single_target float float_scalar 4%nat
           I3 corners 0 0); [shape_of_literal | shape_of_literal | lia].
Defined.

Lemma count_homography_inliers_nan_threshold_witness :
  ∃ n errs, count_homography_inliers I3 [[0]; [0]] [[3]; [0]] nan = Returned (n, errs) ∧
            n = 0%Z.
Proof.
  eexists _, _. split; [vm_compute; reflexivity|].
  eapply (count_homography_inliers_nan_threshold I3 [[0]; [0]] [[3]; [0]]).
  vm_compute. reflexivity.
Defined.

Lemma find_homography_returns_3_3_witness : shape 3 3 e9_matrix.
Proof.
  apply (find_homography_returns_3_3 svd_e9 corners origin).
  vm_compute. reflexivity.
Defined.

Lemma find_homography_wrong_rows_witness :
  find_homography svd_e9 [[1; 2]; [3; 4]; [1; 1]] origin = Raised ValueError.
Proof.
  apply (find_homography_wrong_rows svd_e9 3 2); [shape_of_literal | lia | lia | lia].
Defined.

Lemma ransac_no_iterations_witness :
  find_homography_RANSAC svd_e9 nat counter_interval corners origin (-5) 1 7%nat =
    Returned (None, 0%Z, None, 7%nat).
Proof.
  apply (ransac_no_iterations svd_e9 nat counter_interval corners origin 1 (-5) 7%nat).
  lia.
Defined.

Lemma ransac_fewer_than_4_points_witness :
  find_homography_RANSAC svd_e9 nat counter_interval [[1; 2; 3]; [1; 2; 3]] origin
    10000 1 7%nat = Raised ValueError.
Proof.
  apply (ransac_fewer_than_4_points svd_e9 nat counter_interval); [cbn; lia | lia].
Defined.

Lemma ransac_result_none_or_positive_witness :
  (Some e9_matrix = None ∧ 4%Z = 0%Z ∧ Some [0; 0; 0; 0] = None) ∨
  (∃ H0 errs, Some e9_matrix = Some H0 ∧ Some [0; 0; 0; 0] = Some errs ∧ (1 ≤ 4)%Z).
Proof.
  apply (ransac_result_none_or_positive svd_e9 nat counter_interval corners origin 1
           3 7%nat 16%nat).
  vm_compute. reflexivity.
Defined.

Lemma ransac_keeps_first_maximum_witness :
  ∃ st, ransac_loop svd_e9 nat counter_interval corners origin 1 (Z.to_nat 3)
          (ransac_init 7%nat) = Returned st ∧
        ninliers st = foldr Z.max 0%Z (local_ninliers <$> trials st) ∧
        (∀ H0, Hbest st = Some H0 →
           ∃ newer t older,
             trials st = newer ++ t :: older ∧
             H0 = candidate t ∧ ninliers st = local_ninliers t ∧
             errors st = Some (local_errors t) ∧
             Forall (λ u, (local_ninliers u < local_ninliers t)%Z) older).
Proof.
  eexists. split; [vm_compute; reflexivity|].
  apply (ransac_keeps_first_maximum svd_e9 nat counter_interval corners origin 1 3 7%nat).
  vm_compute. reflexivity.
Defined.

Lemma ransac_result_shapes_witness :
  shape 3 3 e9_matrix ∧ length [0; 0; 0; 0] = 4%nat ∧ (1 ≤ 4 ≤ Z.of_nat 4)%Z.
Proof.
  apply (ransac_result_shapes svd_e9 nat counter_interval corners origin 1 4
           3 7%nat 16%nat); [shape_of_literal.. | vm_compute; reflexivity].
Defined.

Lemma ransac_length_mismatch_witness :
  ∃ e, find_homography_RANSAC svd_e9 nat counter_interval corners origin5 3 1 7%nat =
         Raised e.
Proof.
  apply (ransac_length_mismatch svd_e9 nat counter_interval corners origin5 1
           counter_interval_bound 4 5); [shape_of_literal.. | lia | lia].
Defined.

Lemma ransac_samples_aligned_witness :
  ∃ st, ransac_loop svd_e9 nat counter_interval corners origin 1 (Z.to_nat 3)
          (ransac_init 7%nat) = Returned st ∧
        Forall (λ t, ∃ s1 s2 : matrix float,
                  shape 2 4 s1 ∧ shape 2 4 s2 ∧
                  (∀ k j, idx t !! k = Some j →
                          point s1 k = point corners j ∧ point s2 k = point origin j) ∧
                  find_homography svd_e9 s1 s2 = Returned (candidate t)) (trials st).
Proof.
  eexists. split; [vm_compute; reflexivity|].
  apply (ransac_samples_aligned svd_e9 nat counter_interval corners origin 1
           counter_interval_bound 4 3 7%nat); [shape_of_literal.. | vm_compute; reflexivity].
Defined.

Lemma refine_without_model_witness :
  ransac_then_refine svd_e9 nat counter_interval corners origin 0 7%nat = TypeErrorRaised.
Proof.
  apply (refine_without_model svd_e9 nat counter_interval corners origin 0 7%nat 7%nat
           0%Z None).
  vm_compute. reflexivity.
Defined.

Lemma refine_uses_counted_inliers_witness :
  ∃ inliers1 inliers2 : matrix float,
    shape 2 (Z.to_nat 4) inliers1 ∧ shape 2 (Z.to_nat 4) inliers2 ∧
    ransac_then_refine svd_e9 nat counter_interval corners origin 3 7%nat =
      run_bind (propagate (find_homography svd_e9 inliers1 inliers2))
               (λ H2, Completed (Some e9_matrix, 4%Z, H2, 16%nat)).
Proof.
  apply (refine_uses_counted_inliers svd_e9 nat counter_interval 4 corners origin 3
           7%nat 16%nat e9_matrix 4%Z (Some [0; 0; 0; 0]));
    [reflexivity | shape_of_literal | shape_of_literal | vm_compute; reflexivity].
Defined.

Lemma homography_error_raises_iff_zero_focal_witness :
  homography_error I3 stretch 0 = Raised ZeroDivisionError ∧
  ∃ v, homography_error I3 stretch 1000 = Returned v.
Proof.
  split.
  - apply (homography_error_raises_iff_zero_focal I3 stretch 0);
      [shape_of_literal | shape_of_literal | reflexivity].
  - apply (homography_error_raises_iff_zero_focal I3 stretch 1000);
      [shape_of_literal | shape_of_literal | reflexivity].
Defined.
End MoreWitnesses.

Section MoreWitnessesExact.
Local Open Scope R_scope.

Definition identity_R : matrix R := [[1; 0; 0]; [0; 1; 0]; [0; 0; 1]].
Definition stretch_R : matrix R := [[3; 0; 0]; [0; 1; 0]; [0; 0; 1]].

Lemma homography_error_exact_formula_witness :
  homography_error stretch_R identity_R 1000 =
  Returned (sqrt (
    (3 / 1 - 1 / 1) * (3 / 1 - 1 / 1) + (0 / 1 - 0 / 1) * (0 / 1 - 0 / 1) +
    ((0 / 1 - 0 / 1) / 1000) * ((0 / 1 - 0 / 1) / 1000) +
    (0 / 1 - 0 / 1) * (0 / 1 - 0 / 1) + (1 / 1 - 1 / 1) * (1 / 1 - 1 / 1) +
    ((0 / 1 - 0 / 1) / 1000) * ((0 / 1 - 0 / 1) / 1000) +
    ((0 / 1 - 0 / 1) * 1000) * ((0 / 1 - 0 / 1) * 1000) +
    ((0 / 1 - 0 / 1) * 1000) * ((0 / 1 - 0 / 1) * 1000) +
    (1 / 1 - 1 / 1) * (1 / 1 - 1 / 1))).
Proof. apply (homography_error_exact_formula 3 0 0 0 1 0 0 0 1 1 0 0 0 1 0 0 0 1 1000). lra. Defined.

Lemma homography_error_symmetric_witness :
  homography_error stretch_R identity_R 1000 = homography_error identity_R stretch_R 1000.
Proof.
  apply (homography_error_symmetric stretch_R identity_R 1000); shape_of_literal.
Defined.

Lemma homography_error_scale_blind_witness :
  homography_error (scale 2 stretch_R) (scale (-5) identity_R) 1000 =
  homography_error stretch_R identity_R 1000.
Proof.
  apply (homography_error_scale_blind stretch_R identity_R 2 (-5) 1 1 1000);
    [shape_of_literal | shape_of_literal | reflexivity | reflexivity | lra..].
Defined.

Lemma homography_error_zero_iff_witness :
  homography_error (scale 2 identity_R) identity_R 1000 = Returned 0 ↔
  div_scalar (scale 2 identity_R) (2 * 1) = div_scalar identity_R 1.
Proof.
  apply (homography_error_zero_iff (scale 2 identity_R) identity_R (2 * 1) 1 1000);
    [shape_of_literal | shape_of_literal | reflexivity | reflexivity | lra..].
Defined.
End MoreWitnessesExact.
